(** * docker-events: a shallow embedding of [src/index.ts]

    The class [DockerEventEmitter] extends Node's [EventEmitter].  It watches
    [/var/run] for the docker socket, supervises one [docker events]
    subprocess, decodes its newline-delimited JSON output and republishes the
    records through an overridden [emit].

    The embedding follows the source method by method.  The instance fields
    ([#cmd], [#watcher], [#data], [#lastSeen], [#filters]) and the pieces of
    the platform the methods touch (the listener table of the base class, the
    table of spawned children, the [process.on('exit')] hooks) form one state
    record; methods are computations in a small state / exception / trace
    monad, so that [try ... catch] and the order of side effects read as in
    the source.

    Platform functions are modelled from their documented behaviour:
    - [JSON.parse] is a parameter of the development (section variable
      [JSON_parse]); a reference reader [JSON_parse_ref] instantiates it on
      concrete inputs;
    - [EventEmitter.prototype.emit] is [super_emit]: listeners of the event
      name run synchronously in registration order, the result tells whether
      there were any, and an ['error'] event without listener is thrown;
    - [child_process.spawn] and [ChildProcess.kill] act on the table of
      children.

    Listeners are opaque callbacks: they are identified by a number, return
    normally and do not touch the emitter while they run. *)

From stdpp Require Import gmap strings list fin_maps.
From Stdlib Require Import Ascii.

Set Warnings "-register-all".

(** ** JavaScript values *)

(** The result of [JSON.parse].  A number is kept as its literal: no property
    below depends on a numeric value. *)
Inductive json : Type :=
| JNull
| JBool (b : bool)
| JNum (literal : string)
| JStr (s : string)
| JArr (items : list json)
| JObj (members : list (string * json)).

(** The values that flow through [emit]: decoded documents, [undefined] (an
    absent property) and the [Error] objects of the subprocess. *)
Inductive value : Type :=
| VUndefined
| VJson (j : json)
| VError (message : string).

Inductive exn : Type :=
| SyntaxError (input : string)
| TypeError (what : string)
| ThrownValue (v : value)
| UnhandledError (context : value).

Abbreviation listener := nat.
Abbreviation pid := nat.

(** Observable effects, in the order they happen. *)
Inductive effect : Type :=
| ECall (l : listener) (args : list value)
| EParse (input : string)
| ELogSpawning
| ELogEmitting (j : json)
| ELogCaught (e : exn) (chunk : string)
| ELogFailedToStart (e : value)
| EWatch (dir : string)
| ESpawn (p : pid) (command : string) (shell : bool)
| ESignal (p : pid)
| EOnExit.

Fixpoint in_keys (k : string) (members : list (string * json)) : bool :=
  match members with
  | [] => false
  | (k', _) :: rest => if decide (k' = k) then true else in_keys k rest
  end.

(** An own property of a parsed object: [JSON.parse] keeps the last of
    duplicate members. *)
Fixpoint own_property (k : string) (members : list (string * json)) : option json :=
  match members with
  | [] => None
  | (k', v) :: rest =>
      match own_property k rest with
      | Some v' => Some v'
      | None => if decide (k' = k) then Some v else None
      end
  end.

(** ** The subprocess table *)

Record child : Type := mkChild {
  command : string;
  shell : bool;
  killed : bool;   (* ChildProcess.killed: a signal was delivered by kill() *)
  exited : bool    (* the process is gone and its handle closed *)
}.

(** ** The emitter and the part of the platform it owns *)

Record state : Type := mkState {
  cmd : option pid;                       (* #cmd, null until listen() *)
  watcher : bool;                         (* #watcher is set *)
  data : string;                          (* #data *)
  lastSeen : option string;               (* #lastSeen, undefined at first *)
  filters : list string;                  (* #filters *)
  events : gmap string (list listener);   (* EventEmitter's listener table *)
  children : list child;                  (* every child spawned so far *)
  exitHooks : nat                         (* process.on('exit', ...) calls *)
}.

Definition set_cmd (c : option pid) (st : state) : state :=
  mkState c (watcher st) (data st) (lastSeen st) (filters st) (events st)
          (children st) (exitHooks st).
Definition set_watcher (w : bool) (st : state) : state :=
  mkState (cmd st) w (data st) (lastSeen st) (filters st) (events st)
          (children st) (exitHooks st).
Definition set_data (d : string) (st : state) : state :=
  mkState (cmd st) (watcher st) d (lastSeen st) (filters st) (events st)
          (children st) (exitHooks st).
Definition set_lastSeen (l : option string) (st : state) : state :=
  mkState (cmd st) (watcher st) (data st) l (filters st) (events st)
          (children st) (exitHooks st).
Definition set_events (e : gmap string (list listener)) (st : state) : state :=
  mkState (cmd st) (watcher st) (data st) (lastSeen st) (filters st) e
          (children st) (exitHooks st).
Definition set_children (cs : list child) (st : state) : state :=
  mkState (cmd st) (watcher st) (data st) (lastSeen st) (filters st) (events st)
          cs (exitHooks st).
Definition set_exitHooks (n : nat) (st : state) : state :=
  mkState (cmd st) (watcher st) (data st) (lastSeen st) (filters st) (events st)
          (children st) n.

(** ** The monad of methods

    A computation runs on a state and gives a completion, the state it leaves
    (mutations survive a throw, as in JavaScript) and the effects it made.
    [Diverged] marks a recursion that ran out of fuel; [tryParseStdoutData]
    is shown never to produce it. *)

Inductive completion (A : Type) : Type :=
| Normal (a : A)
| Throw (e : exn)
| Diverged.
Arguments Normal {A} a.
Arguments Throw {A} e.
Arguments Diverged {A}.

Definition M (A : Type) : Type := state -> completion A * state * list effect.

Definition ret {A} (a : A) : M A := fun st => (Normal a, st, []).
Definition throw {A} (e : exn) : M A := fun st => (Throw e, st, []).
Definition diverge {A} : M A := fun st => (Diverged, st, []).

Definition bind {A B} (m : M A) (f : A -> M B) : M B :=
  fun st =>
    match m st with
    | (Normal a, st1, t1) =>
        match f a st1 with
        | (r, st2, t2) => (r, st2, t1 ++ t2)
        end
    | (Throw e, st1, t1) => (Throw e, st1, t1)
    | (Diverged, st1, t1) => (Diverged, st1, t1)
    end.

(** [try { body } catch (err) { handler err }] *)
Definition try_catch {A} (body : M A) (handler : exn -> M A) : M A :=
  fun st =>
    match body st with
    | (Throw e, st1, t1) =>
        match handler e st1 with
        | (r, st2, t2) => (r, st2, t1 ++ t2)
        end
    | other => other
    end.

Definition get : M state := fun st => (Normal st, st, []).
Definition modify (f : state -> state) : M unit := fun st => (Normal tt, f st, []).
Definition tell (e : effect) : M unit := fun st => (Normal tt, st, [e]).

Notation "x <- c1 ;; c2" := (bind c1 (fun x => c2))
  (at level 100, c1 at next level, right associativity).
Notation "c1 ;; c2" := (bind c1 (fun _ => c2))
  (at level 100, right associativity).

(** [xs.forEach(f)] *)
Fixpoint forEach {A} (f : A -> M unit) (xs : list A) : M unit :=
  match xs with
  | [] => ret tt
  | x :: rest => f x ;; forEach f rest
  end.

Definition result_of {A} (r : completion A * state * list effect) : completion A :=
  r.1.1.
Definition state_of {A} (r : completion A * state * list effect) : state :=
  r.1.2.
Definition trace_of {A} (r : completion A * state * list effect) : list effect :=
  r.2.

(** ** Property keys

    [events[type]] converts [type] to a property key (ToPropertyKey).  On the
    values met here that is ToString: arrays join their items with a comma
    ([null] items as the empty string); an object inherits
    [Object.prototype.toString] unless a member of its own named [toString]
    hides it, and then no conversion applies and a TypeError is thrown.
    [Number_toString] renders a number literal as JavaScript prints its
    value. *)

Section Emitter.

Variable JSON_parse : string -> option json.
Variable Number_toString : string -> string.

Fixpoint ToString (j : json) : option string :=
  match j with
  | JNull => Some "null"
  | JBool true => Some "true"
  | JBool false => Some "false"
  | JNum literal => Some (Number_toString literal)
  | JStr s => Some s
  | JArr items =>
      (fix join (xs : list json) : option string :=
         match xs with
         | [] => Some ""
         | x :: rest =>
             match (match x with JNull => Some "" | _ => ToString x end) with
             | None => None
             | Some s =>
                 match rest with
                 | [] => Some s
                 | _ :: _ =>
                     match join rest with
                     | None => None
                     | Some r => Some (s +:+ "," +:+ r)
                     end
                 end
             end
         end) items
  | JObj members =>
      if in_keys "toString" members then None else Some "[object Object]"
  end.

Definition ToPropertyKey (v : value) : M string :=
  match v with
  | VUndefined => ret "undefined"
  | VJson j =>
      match ToString j with
      | Some k => ret k
      | None => throw (TypeError "Cannot convert object to primitive value")
      end
  | VError message =>
      ret (if decide (message = "") then "Error" else "Error: " +:+ message)
  end.

(** ** EventEmitter *)

Definition listeners_of (k : string) (st : state) : list listener :=
  default [] (events st !! k).

(** [emitter.on(pattern, l)]: the listener goes to the end of the array of
    its event name. *)
Definition on (pattern : string) (l : listener) (st : state) : state :=
  set_events (<[pattern := listeners_of pattern st ++ [l]]> (events st)) st.

(** [type === 'error'] *)
Definition is_error_name (type : value) : bool :=
  match type with
  | VJson (JStr s) => bool_decide (s = "error")
  | _ => false
  end.

(** What [emit('error', ...args)] throws when nobody listens: the first
    argument itself when it is an [Error], an ERR_UNHANDLED_ERROR around it
    otherwise. *)
Definition unhandled (args : list value) : exn :=
  match args with
  | VError m :: _ => ThrownValue (VError m)
  | v :: _ => UnhandledError v
  | [] => UnhandledError VUndefined
  end.

Definition is_empty {A} (l : list A) : bool :=
  match l with [] => true | _ => false end.

(** [super.emit(type, ...args)], that is [EventEmitter.prototype.emit] of
    Node: it synchronously calls each of the listeners registered for the
    event name, in the order they were registered, and returns true if the
    event had listeners, false otherwise; and if the emitter has no listener
    registered for the ['error'] event and an ['error'] event is emitted, the
    error is thrown. *)
Definition super_emit (type : value) (args : list value) : M bool :=
  st <- get ;;
  if is_error_name type && is_empty (listeners_of "error" st)
  then throw (unhandled args)
  else
    key <- ToPropertyKey type ;;
    match listeners_of key st with
    | [] => ret false
    | ls => forEach (fun l => tell (ECall l args)) ls ;; ret true
    end.

(** ** DockerEventEmitter *)

(** [constructor(filters = [])] *)
Definition constructor (filters : list string) : state :=
  mkState None false "" None filters ∅ [] 0.

(** [emit(type, ...args)], lines 23-26 *)
Definition emit (type : value) (args : list value) : M bool :=
  super_emit (VJson (JStr "*")) args ;;
  r <- super_emit type args ;;
  if r then ret true else super_emit (VJson (JStr "")) args.

(** [this.#cmd.killed] *)
Definition cmd_killed (p : pid) (st : state) : bool :=
  match children st !! p with
  | Some c => killed c
  | None => false
  end.

(** [ChildProcess.prototype.kill()]: with a live handle the signal is
    delivered and [killed] becomes true; on a child that has exited nothing
    happens and the result is false. *)
Definition kill (p : pid) : M bool :=
  st <- get ;;
  match children st !! p with
  | Some c =>
      if exited c then ret false
      else
        tell (ESignal p) ;;
        modify (set_children
                  (<[p := mkChild (command c) (shell c) true (exited c)]> (children st))) ;;
        ret true
  | None => ret false
  end.

(** [cleanup()], lines 28-36 *)
Definition cleanup : M unit :=
  st <- get ;;
  match cmd st with
  | Some p =>
      if cmd_killed p st then ret tt
      else kill p ;; ret tt
  | None => ret tt
  end.

(** [spawn(command, { shell })]: the new child takes the next slot. *)
Definition spawn (command : string) (shell : bool) : M pid :=
  st <- get ;;
  let p := length (children st) in
  tell (ESpawn p command shell) ;;
  modify (set_children (children st ++ [mkChild command shell false false])) ;;
  ret p.

Definition filter_args (fs : list string) : string :=
  String.concat " " (map (fun filter => "--filter " +:+ filter) fs).

(** [listen()], lines 38-90.  The callbacks it installs (the watcher's, the
    child's ['error'] and stdout ['data'] handlers) are [watcher_callback],
    [on_child_error] and [tryParseStdoutData] below; [handle] runs them. *)
Definition listen : M unit :=
  cleanup ;;
  st <- get ;;
  (if watcher st then ret tt
   else tell (EWatch "/var/run") ;; modify (set_watcher true)) ;;
  tell ELogSpawning ;;
  st <- get ;;
  let filters := filter_args (filters st) in
  p <- spawn ("docker events --format '{{json .}}' " +:+ filters) true ;;
  modify (set_cmd (Some p)) ;;
  tell EOnExit ;;
  modify (fun st => set_exitHooks (S (exitHooks st)) st).

(** The callback given to [watch('/var/run', ...)], lines 46-66 *)
Definition watcher_callback (event filename : string) : M unit :=
  if negb (bool_decide (event = "rename")) then ret tt
  else if negb (bool_decide (filename = "docker.sock"))
          && negb (bool_decide (filename = "dockerd.pid")) then ret tt
  else
    st <- get ;;
    (if bool_decide (lastSeen st = Some "docker.sock")
        && bool_decide (filename = "dockerd.pid")
     then cleanup else ret tt) ;;
    st <- get ;;
    (if bool_decide (lastSeen st = Some "dockerd.pid")
        && bool_decide (filename = "docker.sock")
     then listen else ret tt) ;;
    modify (set_lastSeen (Some filename)).

(** The child's ['error'] handler, lines 84-87 *)
Definition on_child_error (error : string) : M unit :=
  tell (ELogFailedToStart (VError error)) ;;
  emit (VJson (JStr "error")) [VError error] ;;
  ret tt.

(** [data.split(/\n/)] *)
Fixpoint split_newline (s : string) : list string :=
  match s with
  | EmptyString => [EmptyString]
  | String c rest =>
      if decide (c = "010"%char) then EmptyString :: split_newline rest
      else
        match split_newline rest with
        | [] => [String c EmptyString]
        | piece :: pieces => String c piece :: pieces
        end
  end.

(** [json.Action]: reading a property of [null] throws; primitives, arrays
    and objects without the member give [undefined]. *)
Definition get_Action (j : json) : M value :=
  match j with
  | JNull => throw (TypeError "Cannot read properties of null (reading 'Action')")
  | JObj members =>
      match own_property "Action" members with
      | Some v => ret (VJson v)
      | None => ret VUndefined
      end
  | _ => ret VUndefined
  end.

(** [JSON.parse(text)] *)
Definition parse (text : string) : M json :=
  tell (EParse text) ;;
  match JSON_parse text with
  | Some j => ret j
  | None => throw (SyntaxError text)
  end.

(** The [else] branch of [tryParseStdoutData], lines 105-115 *)
Definition decode (chunk : string) : M unit :=
  modify (fun st => set_data (data st +:+ chunk) st) ;;
  try_catch
    (st <- get ;;
     json <- parse (data st) ;;
     modify (set_data "") ;;
     eventType <- get_Action json ;;
     tell (ELogEmitting json) ;;
     emit eventType [VJson json] ;;
     ret tt)
    (fun err => tell (ELogCaught err chunk)).

(** [tryParseStdoutData(data)], lines 92-117.  The recursion of the source
    is on the pieces of the split; [fuel] bounds its depth. *)
Fixpoint tryParseStdoutData_fuel (fuel : nat) (chunk : string) : M unit :=
  match fuel with
  | 0 => diverge
  | S fuel' =>
      if decide (chunk = "") then ret tt
      else
        let strings := split_newline chunk in
        if decide (1 < length strings)
        then forEach (tryParseStdoutData_fuel fuel') strings
        else decode chunk
  end.

(** A piece of a split holds no newline, so the recursion is two calls
    deep at most ([tryParseStdoutData_fuel_enough]). *)
Definition tryParseStdoutData : string -> M unit := tryParseStdoutData_fuel 2.

(** ** The event loop

    What can happen to an emitter, one callback at a time (the loop is single
    threaded): calls of the public methods, a notification of the directory
    watcher (once [listen] has installed it), a chunk or an ['error'] from a
    spawned child, and the exit of a child. *)

Inductive input : Type :=
| CallListen
| CallOn (pattern : string) (l : listener)
| FsEvent (event filename : string)
| ChildData (p : pid) (chunk : string)
| ChildError (p : pid) (error : string)
| ChildExit (p : pid).

Definition mark_exited (p : pid) (st : state) : state :=
  match children st !! p with
  | Some c =>
      set_children (<[p := mkChild (command c) (shell c) (killed c) true]> (children st)) st
  | None => st
  end.

Definition handle (i : input) : M unit :=
  match i with
  | CallListen => listen
  | CallOn pattern l => modify (on pattern l)
  | FsEvent event filename =>
      st <- get ;;
      if watcher st then watcher_callback event filename else ret tt
  | ChildData p chunk =>
      st <- get ;;
      if decide (p < length (children st)) then tryParseStdoutData chunk else ret tt
  | ChildError p error =>
      st <- get ;;
      if decide (p < length (children st)) then on_child_error error else ret tt
  | ChildExit p => modify (mark_exited p)
  end.

(** The inputs are handled in order; an exception no callback catches ends
    the run. *)
Definition run (inputs : list input) : M unit := forEach handle inputs.

End Emitter.

Arguments input : clear implicits.

(** ** A reference reader for [JSON.parse]

    A recursive-descent reader of the JSON grammar (RFC 8259), used where a
    concrete [JSON_parse] is needed.  Characters are 8-bit, so a [\u] escape
    is read when its code is below 256.  The fuel is twice the length of the
    input: of two nested calls at least one comes after a consumed
    character. *)

Module JsonRef.

Definition quote : ascii := "034"%char.
Definition backslash : ascii := "092"%char.

Definition is_ws (c : ascii) : bool :=
  bool_decide (c = " "%char) || bool_decide (c = "009"%char)
  || bool_decide (c = "010"%char) || bool_decide (c = "013"%char).

Fixpoint skip_ws (s : string) : string :=
  match s with
  | String c rest => if is_ws c then skip_ws rest else s
  | EmptyString => s
  end.

Definition is_digit (c : ascii) : bool :=
  let n := nat_of_ascii c in bool_decide (48 ≤ n) && bool_decide (n ≤ 57).

Fixpoint digits (s : string) : string * string :=
  match s with
  | String c rest =>
      if is_digit c then let '(d, r) := digits rest in (String c d, r)
      else (EmptyString, s)
  | EmptyString => (EmptyString, s)
  end.

Fixpoint strip_prefix (p s : string) : option string :=
  match p, s with
  | EmptyString, _ => Some s
  | String a p', String b s' => if decide (a = b) then strip_prefix p' s' else None
  | String _ _, EmptyString => None
  end.

(** int: [0] or a non-zero digit and more digits *)
Definition read_int (s : string) : option (string * string) :=
  match s with
  | String c rest =>
      if bool_decide (c = "0"%char) then Some ("0", rest)
      else if is_digit c then let '(d, r) := digits rest in Some (String c d, r)
      else None
  | EmptyString => None
  end.

(** The character [c] at the head of [s], and what follows it. *)
Definition starts_with (c : ascii) (s : string) : option string :=
  match s with
  | String c' rest => if bool_decide (c' = c) then Some rest else None
  | EmptyString => None
  end.

Definition read_frac (s : string) : option (string * string) :=
  match starts_with "."%char s with
  | Some rest =>
      match digits rest with
      | (EmptyString, _) => None
      | (d, r) => Some ("." +:+ d, r)
      end
  | None => Some (EmptyString, s)
  end.

Definition read_sign (s : string) : string * string :=
  match starts_with "+"%char s, starts_with "-"%char s with
  | Some r, _ => ("+", r)
  | None, Some r => ("-", r)
  | None, None => (EmptyString, s)
  end.

Definition read_exp (s : string) : option (string * string) :=
  match s with
  | String c rest =>
      if bool_decide (c = "e"%char) || bool_decide (c = "E"%char) then
        let '(sign, rest') := read_sign rest in
        match digits rest' with
        | (EmptyString, _) => None
        | (d, r) => Some (String c (sign +:+ d), r)
        end
      else Some (EmptyString, s)
  | EmptyString => Some (EmptyString, s)
  end.

Definition read_number (s : string) : option (string * string) :=
  let '(minus, s0) :=
    match starts_with "-"%char s with
    | Some r => ("-", r)
    | None => (EmptyString, s)
    end in
  match read_int s0 with
  | None => None
  | Some (i, s1) =>
      match read_frac s1 with
      | None => None
      | Some (f, s2) =>
          match read_exp s2 with
          | None => None
          | Some (e, s3) => Some (minus +:+ i +:+ f +:+ e, s3)
          end
      end
  end.

Definition hex_digit (c : ascii) : option nat :=
  let n := nat_of_ascii c in
  if bool_decide (48 ≤ n) && bool_decide (n ≤ 57) then Some (n - 48)
  else if bool_decide (65 ≤ n) && bool_decide (n ≤ 70) then Some (n - 55)
  else if bool_decide (97 ≤ n) && bool_decide (n ≤ 102) then Some (n - 87)
  else None.

Definition read_hex4 (s : string) : option (nat * string) :=
  match s with
  | String a (String b (String c (String d rest))) =>
      match hex_digit a, hex_digit b, hex_digit c, hex_digit d with
      | Some x, Some y, Some z, Some w => Some (((x * 16 + y) * 16 + z) * 16 + w, rest)
      | _, _, _, _ => None
      end
  | _ => None
  end.

Definition read_escape (s : string) : option (ascii * string) :=
  match s with
  | String c rest =>
      if bool_decide (c = quote) then Some (quote, rest)
      else if bool_decide (c = backslash) then Some (backslash, rest)
      else if bool_decide (c = "/"%char) then Some ("/"%char, rest)
      else if bool_decide (c = "b"%char) then Some ("008"%char, rest)
      else if bool_decide (c = "f"%char) then Some ("012"%char, rest)
      else if bool_decide (c = "n"%char) then Some ("010"%char, rest)
      else if bool_decide (c = "r"%char) then Some ("013"%char, rest)
      else if bool_decide (c = "t"%char) then Some ("009"%char, rest)
      else if bool_decide (c = "u"%char) then
        match read_hex4 rest with
        | Some (n, rest') =>
            if bool_decide (n < 256) then Some (ascii_of_nat n, rest') else None
        | None => None
        end
      else None
  | EmptyString => None
  end.

(** The characters of a string literal after its opening quote. *)
Fixpoint read_chars (fuel : nat) (s : string) : option (string * string) :=
  match fuel with
  | 0 => None
  | S fuel' =>
      match s with
      | EmptyString => None
      | String c rest =>
          if bool_decide (c = quote) then Some (EmptyString, rest)
          else if bool_decide (c = backslash) then
            match read_escape rest with
            | Some (c', rest') =>
                match read_chars fuel' rest' with
                | Some (t, r) => Some (String c' t, r)
                | None => None
                end
            | None => None
            end
          else if bool_decide (nat_of_ascii c < 32) then None
          else
            match read_chars fuel' rest with
            | Some (t, r) => Some (String c t, r)
            | None => None
            end
      end
  end.

Definition read_string (s : string) : option (string * string) :=
  match s with
  | String c rest =>
      if bool_decide (c = quote) then read_chars (String.length rest) rest else None
  | EmptyString => None
  end.

(** A value, the items of an array after its bracket, and the members of an
    object after its brace. *)
Fixpoint read_value (fuel : nat) (s : string) : option (json * string) :=
  match fuel with
  | 0 => None
  | S fuel' =>
      match skip_ws s with
      | EmptyString => None
      | String c rest as s0 =>
          if bool_decide (c = "["%char) then
            match starts_with "]"%char (skip_ws rest) with
            | Some r => Some (JArr [], r)
            | None =>
                match read_items fuel' rest with
                | Some (vs, r) => Some (JArr vs, r)
                | None => None
                end
            end
          else if bool_decide (c = "{"%char) then
            match starts_with "}"%char (skip_ws rest) with
            | Some r => Some (JObj [], r)
            | None =>
                match read_members fuel' rest with
                | Some (kvs, r) => Some (JObj kvs, r)
                | None => None
                end
            end
          else if bool_decide (c = quote) then
            match read_string s0 with
            | Some (t, r) => Some (JStr t, r)
            | None => None
            end
          else if bool_decide (c = "n"%char) then
            match strip_prefix "null" s0 with Some r => Some (JNull, r) | None => None end
          else if bool_decide (c = "t"%char) then
            match strip_prefix "true" s0 with Some r => Some (JBool true, r) | None => None end
          else if bool_decide (c = "f"%char) then
            match strip_prefix "false" s0 with Some r => Some (JBool false, r) | None => None end
          else
            match read_number s0 with
            | Some (n, r) => Some (JNum n, r)
            | None => None
            end
      end
  end
with read_items (fuel : nat) (s : string) : option (list json * string) :=
  match fuel with
  | 0 => None
  | S fuel' =>
      match read_value fuel' s with
      | None => None
      | Some (v, s1) =>
          match skip_ws s1 with
          | String c s2 =>
              if bool_decide (c = ","%char) then
                match read_items fuel' s2 with
                | Some (vs, s3) => Some (v :: vs, s3)
                | None => None
                end
              else if bool_decide (c = "]"%char) then Some ([v], s2)
              else None
          | EmptyString => None
          end
      end
  end
with read_members (fuel : nat) (s : string) : option (list (string * json) * string) :=
  match fuel with
  | 0 => None
  | S fuel' =>
      match read_string (skip_ws s) with
      | None => None
      | Some (key, s1) =>
          match skip_ws s1 with
          | String c1 s2 =>
              if bool_decide (c1 = ":"%char) then
                match read_value fuel' s2 with
                | None => None
                | Some (v, s3) =>
                    match skip_ws s3 with
                    | String c s4 =>
                        if bool_decide (c = ","%char) then
                          match read_members fuel' s4 with
                          | Some (kvs, s5) => Some ((key, v) :: kvs, s5)
                          | None => None
                          end
                        else if bool_decide (c = "}"%char) then Some ([(key, v)], s4)
                        else None
                    | EmptyString => None
                    end
                end
              else None
          | EmptyString => None
          end
      end
  end.

Definition JSON_parse_ref (text : string) : option json :=
  match read_value (2 * String.length text + 2) text with
  | Some (v, rest) =>
      match skip_ws rest with
      | EmptyString => Some v
      | String _ _ => None
      end
  | None => None
  end.

(** JSON text is written below with apostrophes for its double quotes. *)
Fixpoint js (s : string) : string :=
  match s with
  | EmptyString => EmptyString
  | String c rest => String (if bool_decide (c = "'"%char) then quote else c) (js rest)
  end.

End JsonRef.

(** ** Registration *)

(** A run of [on] calls, oldest first. *)
Definition subscribe (subs : list (string * listener)) (st : state) : state :=
  fold_left (fun st sub => on sub.1 sub.2 st) subs st.

(** The listeners of [pattern] among [subs], in registration order. *)
Definition registered (pattern : string) (subs : list (string * listener)) : list listener :=
  map snd (filter (fun sub => sub.1 = pattern) subs).

Definition calls (ls : list listener) (args : list value) : list effect :=
  map (fun l => ECall l args) ls.

(** An ['error'] event nobody listens to. *)
Definition unhandled_error (type : value) (st : state) : bool :=
  is_error_name type && is_empty (listeners_of "error" st).

(** The deliveries of one publication, as the specification words them:
    wildcard listeners, then the listeners of the exact pattern, then the
    fallback listeners when the exact pattern has none. *)
Definition dispatch_as_stated (subs : list (string * listener)) (T : string)
    (args : list value) : list effect :=
  calls (registered "*" subs) args ++ calls (registered T subs) args
  ++ (if is_empty (registered T subs) then calls (registered "" subs) args else []).

(** The deliveries [emit] makes on a type whose property key is [key]. *)
Definition dispatch (st : state) (type : value) (key : string) (args : list value)
    : list effect :=
  calls (listeners_of "*" st) args ++ calls (listeners_of key st) args
  ++ (if is_empty (listeners_of key st) && negb (unhandled_error type st)
      then calls (listeners_of "" st) args else []).

Definition is_call (e : effect) : bool :=
  match e with ECall _ _ => true | _ => false end.

(** The listener calls of a trace, and the texts given to [JSON.parse]. *)
Definition deliveries (t : list effect) : list effect :=
  List.filter is_call t.

Fixpoint parses (t : list effect) : list string :=
  match t with
  | [] => []
  | EParse text :: rest => text :: parses rest
  | _ :: rest => parses rest
  end.

Definition is_log (e : effect) : bool :=
  match e with
  | EParse _ | ELogCaught _ _ => true
  | _ => false
  end.

Fixpoint has_newline (s : string) : bool :=
  match s with
  | EmptyString => false
  | String c rest => if decide (c = "010"%char) then true else has_newline rest
  end.

Definition newline : string := String "010"%char EmptyString.

(** A record of the stream: an object whose [Action] member is a string. *)
Definition record_action (j : json) : option string :=
  match j with
  | JObj members =>
      match own_property "Action" members with
      | Some (JStr a) => Some a
      | _ => None
      end
  | _ => None
  end.

(** A document without an [Action] member. *)
Definition lacks_Action (j : json) : bool :=
  match j with
  | JObj members =>
      match own_property "Action" members with Some _ => false | None => true end
  | _ => true
  end.

(** A child counts as live from [spawn] until it exits or a termination
    signal has been delivered to it; the exit that follows the signal is
    not awaited. *)
Definition live (c : child) : bool := negb (killed c) && negb (exited c).

Fixpoint live_from (p : pid) (cs : list child) : list pid :=
  match cs with
  | [] => []
  | c :: rest => (if live c then [p] else []) ++ live_from (S p) rest
  end.

Definition live_pids (st : state) : list pid := live_from 0 (children st).

Fixpoint spawned (t : list effect) : list (pid * string * bool) :=
  match t with
  | [] => []
  | ESpawn p command shell :: rest => (p, command, shell) :: spawned rest
  | _ :: rest => spawned rest
  end.

(** C1 as the specification states it: the deliveries of [emit] on type [T]
    are those of [dispatch_as_stated]. *)
Definition emit_delivers_as_stated (Number_toString : string -> string)
    (subs : list (string * listener)) (T : string) (args : list value) : Prop :=
  trace_of (emit Number_toString (VJson (JStr T)) args (subscribe subs (constructor [])))
  = dispatch_as_stated subs T args.

(** C10 as the specification states it, on one chunk: the document the
    buffer and the chunk make, when it has no [Action] member, reaches the
    wildcard listeners and the listeners of the key [undefined]. *)
Definition published_under_undefined (JSON_parse : string -> option json)
    (Number_toString : string -> string) (chunk : string) (st : state) (j : json)
    : Prop :=
  let r := tryParseStdoutData JSON_parse Number_toString chunk st in
  result_of r = Normal tt
  /\ deliveries (trace_of r)
     = calls (listeners_of "*" st) [VJson j]
       ++ calls (listeners_of "undefined" st) [VJson j]
       ++ (if is_empty (listeners_of "undefined" st)
           then calls (listeners_of "" st) [VJson j] else [])
  /\ data (state_of r) = "".

Definition publishes_every_document (JSON_parse : string -> option json)
    (Number_toString : string -> string) (chunk : string) (st : state) (j : json)
    : Prop :=
  has_newline chunk = false -> chunk <> "" ->
  JSON_parse (data st +:+ chunk) = Some j ->
  lacks_Action j = true ->
  published_under_undefined JSON_parse Number_toString chunk st j.

(** The child of slot [p] after a delivered termination signal. *)
Definition signalled (p : pid) (st : state) : state :=
  match children st !! p with
  | Some c =>
      set_children (<[p := mkChild (command c) (shell c) true (exited c)]> (children st)) st
  | None => st
  end.

(** The tracked child, when it is live. *)
Definition tracked_live (st : state) : option pid :=
  match cmd st with
  | Some p =>
      match children st !! p with
      | Some c => if live c then Some p else None
      | None => None
      end
  | None => None
  end.

(** The state [listen] leaves, given the state after its [cleanup]. *)
Definition listening (st : state) : state :=
  set_exitHooks (S (exitHooks st))
    (set_cmd (Some (length (children st)))
       (set_children
          (children st
           ++ [mkChild ("docker events --format '{{json .}}' " +:+ filter_args (filters st))
                 true false false])
          (set_watcher true st))).

Definition listen_trace (st : state) : list effect :=
  (if watcher st then [] else [EWatch "/var/run"])
  ++ [ELogSpawning;
      ESpawn (length (children st))
        ("docker events --format '{{json .}}' " +:+ filter_args (filters st)) true;
      EOnExit].

(** Every live child is the tracked one. *)
Definition single_owner (st : state) : Prop :=
  forall p c, children st !! p = Some c -> live c = true -> cmd st = Some p.

(** No child is live. *)
Definition idle (st : state) : Prop :=
  forall p c, children st !! p = Some c -> live c = false.

Definition start_line : string :=
  JsonRef.js "{'status':'start','id':'4f2a','Type':'container','Action':'start'}".
Definition die_line : string := JsonRef.js "{'Type':'container','Action':'die'}".
Definition start_record : json :=
  JObj [("status", JStr "start"); ("id", JStr "4f2a"); ("Type", JStr "container");
        ("Action", JStr "start")].
Definition die_record : json := JObj [("Type", JStr "container"); ("Action", JStr "die")].

(** A wildcard listener (1), a listener for [start] (2) and a fallback
    listener (3) on a fresh emitter. *)
Definition sample_emitter : state :=
  subscribe [("*", 1); ("start", 2); ("", 3)] (constructor ["type=container"]).

(** An emitter whose socket went away and came back: the first child was
    signalled, the second is tracked and live. *)
Definition restarted_inputs : list input :=
  [CallOn "*" 1; CallListen; FsEvent "rename" "docker.sock";
   FsEvent "rename" "dockerd.pid"; FsEvent "rename" "docker.sock"].

(** The result of a reader on the fragment [t], against its result [(a, r)]
    on [t +:+ u]. *)
Definition same_or_cut {A} (u : string) (a : A) (r : string)
    (part : option (A * string)) : Prop :=
  match part with
  | None => True
  | Some (a', r') => r' = "" \/ (a' = a /\ r = r' +:+ u)
  end.

Definition same_or_fail {A} (u : string) (a : A) (r : string)
    (part : option (A * string)) : Prop :=
  match part with
  | None => True
  | Some (a', r') => a' = a /\ r = r' +:+ u
  end.

Definition is_num (j : json) : bool :=
  match j with JNum _ => true | _ => false end.

(** A value read from a fragment: failure, the same value, or a number that
    stops where the fragment stops. *)
Definition value_cut (u : string) (v : json) (r : string)
    (part : option (json * string)) : Prop :=
  match part with
  | None => True
  | Some (v', r') =>
      (v' = v /\ r = r' +:+ u) \/ (r' = "" /\ is_num v' = true /\ is_num v = true)
  end.

(** A property of [JSON.parse]: a text that ends with a closing brace and
    is a document (other than a number) has no shorter beginning that is a
    document too.  The brace that closes the document is its last character,
    so any shorter beginning leaves the object open. *)
Definition rejects_fragments (JSON_parse : string -> option json) : Prop :=
  forall x y w,
    JSON_parse (x +:+ y +:+ "}") = Some w -> is_num w = false -> JSON_parse x = None.

(** ** Further observers *)

(** A run of stdout chunks, one ['data'] event each. *)
Definition feed (JSON_parse : string -> option json) (Number_toString : string -> string)
    (chunks : list string) : M unit :=
  forEach (tryParseStdoutData JSON_parse Number_toString) chunks.

(** What [tryParseStdoutData] does with one piece of a split. *)
Definition piece_step (JSON_parse : string -> option json)
    (Number_toString : string -> string) (piece : string) : M unit :=
  if decide (piece = "") then ret tt else decode JSON_parse Number_toString piece.

(** The listener calls that publishing the parsed document [j] makes:
    those of [emit] on its [Action], none when reading [Action] throws. *)
Definition published (Number_toString : string -> string) (j : json) (st : state)
    : list effect :=
  match result_of (get_Action j st) with
  | Normal a => trace_of (emit Number_toString a [VJson j] st)
  | _ => []
  end.

(** A buffer that no continuation turns into a document. *)
Definition dead_buffer (JSON_parse : string -> option json) (st : state) : Prop :=
  forall s, JSON_parse (data st +:+ s) = None.

Fixpoint strip_newlines (s : string) : string :=
  match s with
  | EmptyString => EmptyString
  | String c rest =>
      if decide (c = "010"%char) then strip_newlines rest
      else String c (strip_newlines rest)
  end.

Fixpoint concat_strings (l : list string) : string :=
  match l with
  | [] => EmptyString
  | s :: rest => s +:+ concat_strings rest
  end.

(** The effects on the watcher and the subprocesses. *)
Definition is_lifecycle (e : effect) : bool :=
  match e with
  | EWatch _ | ESpawn _ _ _ | ESignal _ | EOnExit => true
  | _ => false
  end.

Definition lifecycle (t : list effect) : list effect := List.filter is_lifecycle t.

Fixpoint watches (t : list effect) : nat :=
  match t with
  | [] => 0
  | EWatch _ :: rest => S (watches rest)
  | _ :: rest => watches rest
  end.

(** Two states with the same watcher and subprocess side. *)
Definition same_process (s s' : state) : Prop :=
  cmd s = cmd s' /\ watcher s = watcher s' /\ filters s = filters s'
  /\ children s = children s' /\ exitHooks s = exitHooks s'.

(** The command line of [listen] for the filters [fs], line 75. *)
Definition docker_command (fs : list string) : string :=
  "docker events --format '{{json .}}' " +:+ filter_args fs.

(** The bookkeeping of the supervisor after a run from construction with
    the filters [fs], on the state reached and the trace made: the filters
    are those of the constructor; there is one exit hook per child; the
    tracked child is the last one spawned; the directory watch is installed
    once there is a child, and was installed once; the children were spawned in slot order, all
    with the same command, through a shell. *)
Definition supervised (fs : list string) (st : state) (t : list effect) : Prop :=
  filters st = fs
  /\ exitHooks st = length (children st)
  /\ cmd st = match length (children st) with 0 => None | S n => Some n end
  /\ watches t = (if watcher st then 1 else 0)
  /\ watcher st = negb (length (children st) =? 0)
  /\ spawned t = map (fun p => (p, docker_command fs, true)) (seq 0 (length (children st)))
  /\ Forall (fun c => command c = docker_command fs /\ shell c = true) (children st).

(** [this.#cmd.kill()] as the ['exit'] hook of lines 78-80 runs it. *)
Definition kill_tracked : M unit :=
  st <- get ;;
  match cmd st with
  | Some p => kill p ;; ret tt
  | None => throw (TypeError "Cannot read properties of null (reading 'kill')")
  end.

(** The ['exit'] event of the process: every hook [listen] registered runs,
    in registration order. *)
Definition on_process_exit : M unit :=
  st <- get ;;
  forEach (fun _ : unit => kill_tracked) (replicate (exitHooks st) tt).

(** A notification the watcher callback reacts to, lines 49-52. *)
Definition qualifies (event filename : string) : bool :=
  bool_decide (event = "rename")
  && (bool_decide (filename = "docker.sock") || bool_decide (filename = "dockerd.pid")).

(** A run of notifications, as (event, filename) pairs. *)
Definition notify (evs : list (string * string)) : M unit :=
  forEach (fun ef => watcher_callback ef.1 ef.2) evs.

Fixpoint last_qualifying (evs : list (string * string)) (seen : option string)
    : option string :=
  match evs with
  | [] => seen
  | (event, filename) :: rest =>
      last_qualifying rest (if qualifies event filename then Some filename else seen)
  end.

(** ** Basic facts *)

Example JSON_parse_ref_record :
  JsonRef.JSON_parse_ref (JsonRef.js "{'Type':'container', 'Action':'start','n':[1,-2.5e3,null,true]}")
  = Some (JObj [("Type", JStr "container"); ("Action", JStr "start");
                ("n", JArr [JNum "1"; JNum "-2.5e3"; JNull; JBool true])]).
Proof. vm_compute. reflexivity. Qed.

Example JSON_parse_ref_rejects_fragment :
  JsonRef.JSON_parse_ref (JsonRef.js "{'Action':'sta") = None
  /\ JsonRef.JSON_parse_ref "" = None
  /\ JsonRef.JSON_parse_ref "01" = None
  /\ JsonRef.JSON_parse_ref "[1,]" = None
  /\ JsonRef.JSON_parse_ref " null " = Some JNull.
Proof. vm_compute. repeat split; reflexivity. Qed.


Lemma listeners_of_on pattern l k st :
  listeners_of k (on pattern l st)
  = if decide (pattern = k) then listeners_of k st ++ [l] else listeners_of k st.
Proof.
  unfold listeners_of, on; simpl.
  rewrite lookup_insert. destruct (decide (pattern = k)) as [->|]; reflexivity.
Qed.

Lemma listeners_of_subscribe subs k st :
  listeners_of k (subscribe subs st) = listeners_of k st ++ registered k subs.
Proof.
  revert st. induction subs as [|[p l] subs IH]; intros st.
  - unfold registered; simpl. by rewrite app_nil_r.
  - change (subscribe ((p, l) :: subs) st) with (subscribe subs (on p l st)).
    rewrite IH, listeners_of_on. unfold registered.
    rewrite filter_cons; simpl.
    destruct (decide (p = k)); simpl; [by rewrite <- app_assoc | reflexivity].
Qed.

Lemma listeners_of_fresh k st : events st = ∅ -> listeners_of k st = [].
Proof. unfold listeners_of. intros ->. by rewrite lookup_empty. Qed.

Lemma events_subscribe_only subs st :
  cmd (subscribe subs st) = cmd st /\ data (subscribe subs st) = data st
  /\ children (subscribe subs st) = children st.
Proof.
  revert st. induction subs as [|[p l] subs IH]; intros st; [done|].
  change (subscribe ((p, l) :: subs) st) with (subscribe subs (on p l st)).
  destruct (IH (on p l st)) as (-> & -> & ->). done.
Qed.

Lemma forEach_calls ls args st :
  forEach (fun l => tell (ECall l args)) ls st = (Normal tt, st, calls ls args).
Proof.
  induction ls as [|l ls IH]; [reflexivity|].
  simpl. unfold bind at 1. unfold tell at 1. rewrite IH. reflexivity.
Qed.

Section Dispatch.

Variable Number_toString : string -> string.

Lemma super_emit_unhandled type args st :
  unhandled_error type st = true ->
  super_emit Number_toString type args st = (Throw (unhandled args), st, []).
Proof.
  unfold unhandled_error, super_emit, bind, get. intros ->. reflexivity.
Qed.

Lemma super_emit_key type key args st :
  unhandled_error type st = false ->
  ToPropertyKey Number_toString type st = (Normal key, st, []) ->
  super_emit Number_toString type args st
  = (Normal (negb (is_empty (listeners_of key st))), st, calls (listeners_of key st) args).
Proof.
  unfold unhandled_error, super_emit. intros Hu Hk.
  unfold bind at 1, get. rewrite Hu. unfold bind at 1. rewrite Hk.
  destruct (listeners_of key st) as [|l ls] eqn:E; [reflexivity|].
  unfold bind. rewrite forEach_calls. unfold ret; simpl.
  by rewrite !app_nil_r.
Qed.

Lemma super_emit_string (s : string) args st :
  unhandled_error (VJson (JStr s)) st = false ->
  super_emit Number_toString (VJson (JStr s)) args st
  = (Normal (negb (is_empty (listeners_of s st))), st, calls (listeners_of s st) args).
Proof. intros Hu. by apply super_emit_key. Qed.

(** What [emit] does on a type whose property key is [key]. *)
Lemma emit_key type key args st :
  unhandled_error type st = false ->
  ToPropertyKey Number_toString type st = (Normal key, st, []) ->
  emit Number_toString type args st
  = (Normal (negb (is_empty (listeners_of key st) && is_empty (listeners_of "" st))),
     st,
     calls (listeners_of "*" st) args ++ calls (listeners_of key st) args
     ++ (if is_empty (listeners_of key st) then calls (listeners_of "" st) args else [])).
Proof.
  intros Hu Hk. unfold emit.
  unfold bind at 1. rewrite super_emit_string by reflexivity.
  unfold bind at 1. rewrite (super_emit_key _ _ _ _ Hu Hk).
  destruct (listeners_of key st) as [|l ls]; simpl.
  - rewrite super_emit_string by reflexivity. reflexivity.
  - unfold ret. by rewrite app_nil_r.
Qed.

Lemma emit_unhandled type args st :
  unhandled_error type st = true ->
  emit Number_toString type args st = (Throw (unhandled args), st, calls (listeners_of "*" st) args).
Proof.
  intros Hu. unfold emit.
  unfold bind at 1. rewrite super_emit_string by reflexivity.
  unfold bind at 1. rewrite (super_emit_unhandled _ _ _ Hu).
  by rewrite app_nil_r.
Qed.

(** [emit] leaves the emitter as it found it, whatever it completes with. *)
Lemma ToPropertyKey_cases type st :
  (exists key, ToPropertyKey Number_toString type st = (Normal key, st, []))
  \/ (exists e, ToPropertyKey Number_toString type st = (Throw e, st, [])).
Proof.
  destruct type as [|j|m]; simpl; [left; by eexists | | left; by eexists].
  destruct (ToString Number_toString j); [left | right]; by eexists.
Qed.

Lemma super_emit_state type args st : state_of (super_emit Number_toString type args st) = st.
Proof.
  destruct (unhandled_error type st) eqn:Hu.
  - by rewrite super_emit_unhandled.
  - destruct (ToPropertyKey_cases type st) as [[key Hk]|[e He]].
    + by rewrite (super_emit_key _ _ _ _ Hu Hk).
    + unfold super_emit. unfold bind at 1, get.
      fold (unhandled_error type st). rewrite Hu.
      unfold bind. by rewrite He.
Qed.

Lemma emit_state type args st : state_of (emit Number_toString type args st) = st.
Proof.
  unfold emit, bind.
  pose proof (super_emit_state (VJson (JStr "*")) args st) as H1.
  destruct (super_emit Number_toString (VJson (JStr "*")) args st) as [[[b1| |] st1] t1];
    unfold state_of in H1; simpl in H1; subst st1; try reflexivity.
  pose proof (super_emit_state type args st) as H2.
  destruct (super_emit Number_toString type args st) as [[[b2| |] st2] t2];
    unfold state_of in H2; simpl in H2; subst st2; try reflexivity.
  destruct b2; [reflexivity|].
  pose proof (super_emit_state (VJson (JStr "")) args st) as H3.
  destruct (super_emit Number_toString (VJson (JStr "")) args st) as [[r3 st3] t3].
  unfold state_of in H3; simpl in H3; subst st3. reflexivity.
Qed.

(** The deliveries of [emit], handled or not. *)
Lemma emit_trace type key args st :
  ToPropertyKey Number_toString type st = (Normal key, st, []) ->
  trace_of (emit Number_toString type args st) = dispatch st type key args.
Proof.
  intros Hk. unfold dispatch.
  destruct (unhandled_error type st) eqn:Hu.
  - rewrite (emit_unhandled _ _ _ Hu). simpl.
    assert (key = "error" /\ listeners_of "error" st = []) as [-> E].
    { unfold unhandled_error in Hu. apply andb_true_iff in Hu as [Hn He].
      destruct type as [|[]|]; try discriminate Hn. simpl in Hn.
      apply bool_decide_eq_true in Hn as ->.
      split; [by inversion Hk|].
      by destruct (listeners_of "error" st). }
    rewrite E. unfold trace_of. simpl. by rewrite ?andb_false_r, ?app_nil_r.
  - rewrite (emit_key _ _ _ _ Hu Hk). unfold trace_of. simpl.
    by rewrite ?andb_true_r.
Qed.

(** C1 (amended).  Publishing an event of type [T] with payload [args], other
    than an ['error'] event while no listener is registered under ['error'],
    calls the wildcard listeners first, then the listeners registered under
    [T], then the fallback listeners exactly when none is registered under
    [T]; each group runs in registration order, [emit] returns whether the
    exact or the fallback group was non-empty, and the emitter is unchanged. *)
Theorem emit_dispatch_order (subs : list (string * listener)) (st0 : state)
    (T : string) (args : list value) :
  ~ (T = "error" /\ registered "error" subs = []) ->
  emit Number_toString (VJson (JStr T)) args (subscribe subs (set_events ∅ st0))
  = (Normal (negb (is_empty (registered T subs) && is_empty (registered "" subs))),
     subscribe subs (set_events ∅ st0),
     dispatch_as_stated subs T args).
Proof.
  intros Hne.
  set (st := subscribe subs (set_events ∅ st0)).
  assert (Hl : forall k, listeners_of k st = registered k subs).
  { intros k. unfold st. rewrite listeners_of_subscribe.
    by rewrite listeners_of_fresh. }
  assert (Hu : unhandled_error (VJson (JStr T)) st = false).
  { unfold unhandled_error. simpl. rewrite Hl.
    destruct (bool_decide (T = "error")) eqn:HT; [|reflexivity].
    apply bool_decide_eq_true in HT.
    destruct (registered "error" subs) eqn:E; [|reflexivity].
    exfalso. apply Hne. by split. }
  rewrite (emit_key (VJson (JStr T)) T args st Hu eq_refl).
  unfold dispatch_as_stated. by rewrite !Hl.
Qed.

(** An ['error'] event nobody listens to reaches the wildcard listeners and
    is then thrown by the base class: the fallback listeners are skipped. *)
Lemma emit_error_without_listener (subs : list (string * listener)) (st0 : state)
    (args : list value) :
  registered "error" subs = [] ->
  emit Number_toString (VJson (JStr "error")) args (subscribe subs (set_events ∅ st0))
  = (Throw (unhandled args), subscribe subs (set_events ∅ st0),
     calls (registered "*" subs) args).
Proof.
  intros E.
  set (st := subscribe subs (set_events ∅ st0)).
  assert (Hl : forall k, listeners_of k st = registered k subs).
  { intros k. unfold st. rewrite listeners_of_subscribe.
    by rewrite listeners_of_fresh. }
  rewrite emit_unhandled; [by rewrite Hl|].
  unfold unhandled_error. simpl. by rewrite Hl, E.
Qed.

End Dispatch.

Lemma emit_dispatch_order_witness :
  ~ ("start" = "error" /\ registered "error" [("*", 1); ("start", 2); ("", 3); ("start", 4)] = [])
  /\ emit id (VJson (JStr "start")) [VJson JNull]
       (subscribe [("*", 1); ("start", 2); ("", 3); ("start", 4)]
          (set_events ∅ (constructor [])))
     = (Normal (negb (is_empty (registered "start" [("*", 1); ("start", 2); ("", 3); ("start", 4)])
                      && is_empty (registered "" [("*", 1); ("start", 2); ("", 3); ("start", 4)]))),
        subscribe [("*", 1); ("start", 2); ("", 3); ("start", 4)]
          (set_events ∅ (constructor [])),
        dispatch_as_stated [("*", 1); ("start", 2); ("", 3); ("start", 4)] "start"
          [VJson JNull]).
Proof.
  split.
  - intros [H _]. discriminate H.
  - apply (emit_dispatch_order id). intros [H _]. discriminate H.
Defined.

(** C1 fails as stated: with only a fallback listener registered, the spawn
    failure that [listen] publishes as ['error'] is thrown and the fallback
    listener is not called. *)
Lemma emit_error_skips_fallback :
  ~ emit_delivers_as_stated id [("", 7)] "error" [VError "spawn docker ENOENT"].
Proof.
  unfold emit_delivers_as_stated. vm_compute. discriminate.
Qed.

(** ** Traces and splitting *)

Lemma deliveries_app t1 t2 : deliveries (t1 ++ t2) = deliveries t1 ++ deliveries t2.
Proof.
  unfold deliveries. induction t1 as [|e t1 IH]; [reflexivity|].
  simpl. destruct (is_call e); simpl; by rewrite IH.
Qed.

Lemma deliveries_calls ls args : deliveries (calls ls args) = calls ls args.
Proof.
  unfold deliveries, calls. induction ls as [|l ls IH]; [reflexivity|].
  simpl. by rewrite IH.
Qed.

Lemma deliveries_dispatch st type key args :
  deliveries (dispatch st type key args) = dispatch st type key args.
Proof.
  unfold dispatch. rewrite !deliveries_app, !deliveries_calls.
  destruct (is_empty (listeners_of key st) && negb (unhandled_error type st));
    [by rewrite deliveries_calls | reflexivity].
Qed.

Lemma parses_app t1 t2 : parses (t1 ++ t2) = parses t1 ++ parses t2.
Proof.
  induction t1 as [|e t1 IH]; [reflexivity|].
  destruct e; simpl; by rewrite IH.
Qed.

Lemma parses_calls ls args : parses (calls ls args) = [].
Proof. induction ls as [|l ls IH]; [reflexivity|]. exact IH. Qed.

Lemma parses_dispatch st type key args : parses (dispatch st type key args) = [].
Proof.
  unfold dispatch. rewrite !parses_app, !parses_calls.
  destruct (is_empty (listeners_of key st) && negb (unhandled_error type st));
    [by rewrite parses_calls | reflexivity].
Qed.

Lemma append_cons c s t : String c s +:+ t = String c (s +:+ t).
Proof. reflexivity. Qed.

Lemma append_empty_r s : s +:+ "" = s.
Proof. induction s as [|c s IH]; [reflexivity|]. by rewrite append_cons, IH. Qed.

Lemma split_newline_cons s : exists piece pieces, split_newline s = piece :: pieces.
Proof.
  induction s as [|c s (p & ps & IH)]; simpl; [by eexists _, _|].
  destruct (decide (c = "010"%char)); [by eexists _, _|].
  rewrite IH. by eexists _, _.
Qed.

(** Without a newline the split gives the chunk back, alone. *)
Lemma split_newline_whole s : has_newline s = false -> split_newline s = [s].
Proof.
  induction s as [|c s IH]; simpl; [reflexivity|].
  destruct (decide (c = "010"%char)); [discriminate|].
  intros H. by rewrite (IH H).
Qed.

Lemma split_newline_app r1 r2 :
  has_newline r1 = false ->
  split_newline (r1 +:+ newline +:+ r2) = r1 :: split_newline r2.
Proof.
  induction r1 as [|c r1 IH]; simpl; intros H.
  - change ("" +:+ newline +:+ r2) with (String "010"%char r2). simpl.
    destruct (decide ("010"%char = "010"%char)); [reflexivity | congruence].
  - destruct (decide (c = "010"%char)); [discriminate|].
    by rewrite (IH H).
Qed.

(** The split has more than one piece exactly when there is a newline. *)
Lemma split_newline_length s :
  has_newline s = true <-> 1 < length (split_newline s).
Proof.
  induction s as [|c s IH]; simpl; [split; [discriminate | lia]|].
  destruct (decide (c = "010"%char)).
  - destruct (split_newline_cons s) as (p & ps & ->). simpl. split; [lia | done].
  - destruct (split_newline_cons s) as (p & ps & E). rewrite E in *. exact IH.
Qed.

(** No piece of a split holds a newline. *)
Lemma split_newline_pieces s :
  Forall (fun piece => has_newline piece = false) (split_newline s).
Proof.
  induction s as [|c s IH]; simpl; [by constructor|].
  destruct (decide (c = "010"%char)); [by constructor|].
  destruct (split_newline s) as [|p ps]; [by constructor; [simpl; case_decide|]|].
  inversion IH; subst. constructor; [|done].
  simpl. by case_decide.
Qed.

Lemma has_newline_app r1 r2 : has_newline (r1 +:+ newline +:+ r2) = true.
Proof.
  induction r1 as [|c r1 IH]; simpl; [reflexivity|].
  by destruct (decide (c = "010"%char)).
Qed.

(** ** Sequencing *)


(** ** The decoder *)

Section Decoder.

Variable JSON_parse : string -> option json.
Variable Number_toString : string -> string.

#[local] Arguments get_Action : simpl never.
#[local] Arguments emit : simpl never.

(** [emit] returns or throws, leaves the state alone and only calls
    listeners. *)
Lemma emit_cases type args st :
  exists r t,
    emit Number_toString type args st = (r, st, t)
    /\ r <> Diverged /\ deliveries t = t /\ parses t = [].
Proof.
  destruct (unhandled_error type st) eqn:Hu.
  - rewrite (emit_unhandled _ _ _ _ Hu). eexists _, _. split; [reflexivity|].
    split; [discriminate|]. by rewrite deliveries_calls, parses_calls.
  - destruct (ToPropertyKey_cases Number_toString type st) as [[key Hk]|[e He]].
    + pose proof (emit_trace _ _ _ args _ Hk) as Ht.
      rewrite (emit_key _ _ _ _ _ Hu Hk) in *. unfold trace_of in Ht; simpl in Ht.
      eexists _, _. split; [reflexivity|]. split; [discriminate|].
      rewrite Ht. by rewrite deliveries_dispatch, parses_dispatch.
    + exists (Throw e), (calls (listeners_of "*" st) args). split.
      * unfold emit. unfold bind at 1.
        rewrite super_emit_string by reflexivity.
        unfold bind at 1. unfold super_emit. unfold bind at 1, get.
        fold (unhandled_error type st). rewrite Hu.
        unfold bind. rewrite He. by rewrite app_nil_r.
      * split; [discriminate|]. by rewrite deliveries_calls, parses_calls.
Qed.

(** A text that is no JSON document stays in the buffer; the SyntaxError is
    caught and logged. *)
Lemma decode_syntax_error chunk st :
  JSON_parse (data st +:+ chunk) = None ->
  decode JSON_parse Number_toString chunk st
  = (Normal tt, set_data (data st +:+ chunk) st,
     [EParse (data st +:+ chunk);
      ELogCaught (SyntaxError (data st +:+ chunk)) chunk]).
Proof.
  intros H. cbv [decode bind modify try_catch get parse tell ret throw]. simpl.
  rewrite H. reflexivity.
Qed.

(** The document [null] parses, the buffer is cleared, and reading its
    [Action] throws: nothing is published. *)
Lemma decode_null chunk st :
  JSON_parse (data st +:+ chunk) = Some JNull ->
  decode JSON_parse Number_toString chunk st
  = (Normal tt, set_data "" st,
     [EParse (data st +:+ chunk);
      ELogCaught (TypeError "Cannot read properties of null (reading 'Action')") chunk]).
Proof.
  intros H. cbv [decode bind modify try_catch get parse tell ret throw]. simpl.
  rewrite H. reflexivity.
Qed.

(** A document whose [Action] reads as [a], with property key [key], is
    published: one parse, the buffer cleared, the deliveries of [emit]. *)
Lemma decode_publish chunk st j a key :
  JSON_parse (data st +:+ chunk) = Some j ->
  (forall s, get_Action j s = (Normal a, s, [])) ->
  (forall s, ToPropertyKey Number_toString a s = (Normal key, s, [])) ->
  exists t,
    decode JSON_parse Number_toString chunk st = (Normal tt, set_data "" st, t)
    /\ parses t = [data st +:+ chunk]
    /\ deliveries t = dispatch st a key [VJson j].
Proof.
  intros Hp Ha Hk.
  pose proof (emit_trace Number_toString a key [VJson j] (set_data "" st) (Hk _)) as Ht.
  destruct (emit_cases a [VJson j] (set_data "" st)) as (r & t & He & Hr & Hd & Hq).
  rewrite He in Ht. unfold trace_of in Ht; simpl in Ht.
  cbv [decode bind modify try_catch get parse tell ret throw]. simpl.
  rewrite Hp, Ha.
  change (set_data "" (set_data (data st +:+ chunk) st)) with (set_data "" st).
  rewrite He.
  destruct r as [b|e|]; [| |done].
  - eexists. split; [reflexivity|]. simpl. rewrite ?app_nil_r.
    split; [by rewrite Hq|]. rewrite Hd. exact Ht.
  - eexists. split; [reflexivity|]. simpl.
    rewrite parses_app, deliveries_app, Hq, Hd. simpl. rewrite ?app_nil_r.
    split; [reflexivity|]. exact Ht.
Qed.

(** Every decode cycle gives the buffer and the chunk, joined, to
    [JSON.parse], once. *)
Lemma decode_parses chunk st :
  parses (trace_of (decode JSON_parse Number_toString chunk st)) = [data st +:+ chunk].
Proof.
  destruct (JSON_parse (data st +:+ chunk)) as [j|] eqn:Hp;
    [|by rewrite (decode_syntax_error _ _ Hp)].
  cbv [decode bind modify try_catch get parse tell ret throw]. simpl.
  rewrite Hp.
  change (set_data "" (set_data (data st +:+ chunk) st)) with (set_data "" st).
  assert (Hg : (exists a, forall s, get_Action j s = (Normal a, s, []))
               \/ (exists e, forall s, get_Action j s = (Throw e, s, []))).
  { unfold get_Action.
    destruct j as [| | | | |members]; try (left; by eexists); [right; by eexists|].
    destruct (own_property "Action" members); left; by eexists. }
  destruct Hg as [[a Ha]|[e He]].
  - rewrite Ha.
    destruct (emit_cases a [VJson j] (set_data "" st)) as (r & t & -> & Hr & _ & Hq).
    destruct r as [| |]; [| |done]; unfold trace_of; simpl;
      rewrite ?parses_app, ?Hq; reflexivity.
  - rewrite He. reflexivity.
Qed.

Lemma record_get_Action j a :
  record_action j = Some a ->
  forall s, get_Action j s = (Normal (VJson (JStr a)), s, []).
Proof.
  unfold record_action, get_Action.
  destruct j as [| | | | |members]; try discriminate.
  destruct (own_property "Action" members) as [[]|]; try discriminate.
  by intros [= ->].
Qed.

Lemma lacks_get_Action j :
  lacks_Action j = true -> j <> JNull ->
  forall s, get_Action j s = (Normal VUndefined, s, []).
Proof.
  unfold lacks_Action, get_Action.
  destruct j as [| | | | |members]; try done.
  by destruct (own_property "Action" members).
Qed.

(** On a chunk without newline, [tryParseStdoutData] skips the empty chunk
    and decodes any other. *)
Lemma tryParseStdoutData_fuel_piece fuel chunk st :
  has_newline chunk = false ->
  tryParseStdoutData_fuel JSON_parse Number_toString (S fuel) chunk st
  = if decide (chunk = "") then (Normal tt, st, [])
    else decode JSON_parse Number_toString chunk st.
Proof.
  intros H. simpl. destruct (decide (chunk = "")); [reflexivity|].
  rewrite (split_newline_whole _ H). simpl.
  destruct (decide (1 < 1)); [lia | reflexivity].
Qed.

Lemma forEach_ext {A} (f g : A -> M unit) xs :
  Forall (fun x => forall st, f x st = g x st) xs ->
  forall st, forEach f xs st = forEach g xs st.
Proof.
  induction 1 as [|x xs Hx _ IH]; intros st; [reflexivity|].
  simpl. unfold bind. rewrite Hx. destruct (g x st) as [[[]]]; try reflexivity.
  by rewrite IH.
Qed.

(** Fuel 2 is enough: more fuel gives the same run. *)
Lemma tryParseStdoutData_fuel_enough fuel chunk st :
  tryParseStdoutData_fuel JSON_parse Number_toString (S (S fuel)) chunk st
  = tryParseStdoutData JSON_parse Number_toString chunk st.
Proof.
  unfold tryParseStdoutData.
  assert (Hstep : forall n,
    tryParseStdoutData_fuel JSON_parse Number_toString (S n) chunk st
    = (if decide (chunk = "") then ret tt
       else if decide (1 < length (split_newline chunk))
            then forEach (tryParseStdoutData_fuel JSON_parse Number_toString n)
                   (split_newline chunk)
            else decode JSON_parse Number_toString chunk) st) by reflexivity.
  rewrite !Hstep.
  destruct (decide (chunk = "")); [reflexivity|].
  destruct (decide (1 < length (split_newline chunk))); [|reflexivity].
  apply forEach_ext.
  eapply Forall_impl; [apply split_newline_pieces|].
  intros piece Hp s. simpl in Hp.
  by rewrite !tryParseStdoutData_fuel_piece.
Qed.

Lemma get_Action_cases j :
  (exists a, forall s, get_Action j s = (Normal a, s, []))
  \/ (exists e, forall s, get_Action j s = (Throw e, s, [])).
Proof.
  unfold get_Action.
  destruct j as [| | | | |members]; try (left; by eexists); [right; by eexists|].
  destruct (own_property "Action" members); left; by eexists.
Qed.

Lemma decode_total chunk st :
  exists d t,
    decode JSON_parse Number_toString chunk st = (Normal tt, set_data d st, t).
Proof.
  destruct (JSON_parse (data st +:+ chunk)) as [j|] eqn:Hp.
  - cbv [decode bind modify try_catch get parse tell ret throw]. simpl.
    rewrite Hp.
    change (set_data "" (set_data (data st +:+ chunk) st)) with (set_data "" st).
    destruct (get_Action_cases j) as [[a Ha]|[e He]].
    + rewrite Ha.
      destruct (emit_cases a [VJson j] (set_data "" st)) as (r & t & -> & Hr & _).
      destruct r as [| |]; [by eexists _, _ | by eexists _, _ | done].
    + rewrite He. by eexists _, _.
  - rewrite (decode_syntax_error _ _ Hp). by eexists _, _.
Qed.

Lemma set_data_same st : set_data (data st) st = st.
Proof. by destruct st. Qed.

Lemma forEach_total {A} (f : A -> M unit) xs :
  Forall (fun x => forall st, exists d t, f x st = (Normal tt, set_data d st, t)) xs ->
  forall st, exists d t, forEach f xs st = (Normal tt, set_data d st, t).
Proof.
  induction 1 as [|x xs Hx _ IH]; intros st.
  - exists (data st), []. by rewrite set_data_same.
  - simpl. unfold bind. destruct (Hx st) as (d1 & t1 & ->).
    destruct (IH (set_data d1 st)) as (d2 & t2 & ->). by eexists _, _.
Qed.

(** [tryParseStdoutData] returns on every chunk, from every state: the
    recursion ends, no exception leaves the [try], and only the buffer can
    have changed. *)
Lemma tryParseStdoutData_total chunk st :
  exists d t,
    tryParseStdoutData JSON_parse Number_toString chunk st
    = (Normal tt, set_data d st, t).
Proof.
  unfold tryParseStdoutData. simpl.
  destruct (decide (chunk = "")).
  { exists (data st), []. by rewrite set_data_same. }
  destruct (decide (1 < length (split_newline chunk))); [|apply decode_total].
  apply forEach_total.
  eapply Forall_impl; [apply split_newline_pieces|].
  intros piece Hp s. simpl in Hp.
  rewrite (tryParseStdoutData_fuel_piece 0 _ _ Hp).
  destruct (decide (piece = "")); [|apply decode_total].
  exists (data s), []. by rewrite set_data_same.
Qed.

Lemma tryParseStdoutData_piece chunk st :
  has_newline chunk = false -> chunk <> "" ->
  tryParseStdoutData JSON_parse Number_toString chunk st
  = decode JSON_parse Number_toString chunk st.
Proof.
  intros H Hne. unfold tryParseStdoutData.
  rewrite (tryParseStdoutData_fuel_piece _ _ _ H).
  by destruct (decide (chunk = "")).
Qed.

(** A chunk [r1 \n r2] is two calls on the pieces, in order. *)
Lemma tryParseStdoutData_two r1 r2 st :
  has_newline r1 = false -> has_newline r2 = false -> r1 <> "" -> r2 <> "" ->
  tryParseStdoutData JSON_parse Number_toString (r1 +:+ newline +:+ r2) st
  = (decode JSON_parse Number_toString r1 ;;
     decode JSON_parse Number_toString r2 ;; ret tt) st.
Proof.
  intros H1 H2 N1 N2. unfold tryParseStdoutData.
  assert (Hstep : forall n chunk,
    tryParseStdoutData_fuel JSON_parse Number_toString (S n) chunk st
    = (if decide (chunk = "") then ret tt
       else if decide (1 < length (split_newline chunk))
            then forEach (tryParseStdoutData_fuel JSON_parse Number_toString n)
                   (split_newline chunk)
            else decode JSON_parse Number_toString chunk) st) by reflexivity.
  rewrite Hstep.
  destruct (decide (r1 +:+ newline +:+ r2 = "")) as [E|_].
  { pose proof (has_newline_app r1 r2) as Hn. rewrite E in Hn. discriminate. }
  rewrite (split_newline_app _ _ H1), (split_newline_whole _ H2).
  destruct (decide (1 < length [r1; r2])) as [_|]; [|simpl in *; lia].
  cbn [forEach]. unfold bind.
  rewrite (tryParseStdoutData_fuel_piece 0 _ _ H1).
  destruct (decide (r1 = "")); [done|].
  destruct (decode JSON_parse Number_toString r1 st) as [[[[]| |] s1] t1];
    try reflexivity.
  rewrite (tryParseStdoutData_fuel_piece 0 _ _ H2).
  by destruct (decide (r2 = "")).
Qed.

(** C2.  A chunk made of two complete records joined by a newline, fed to a
    decoder with an empty buffer, runs exactly two decode cycles, on the first
    record and then on the second, each alone.  Each cycle publishes its
    record under its own [Action]: the wildcard listeners are called with the
    record, then the listeners registered under that action (then the
    fallback listeners when there is none).  The buffer is empty afterwards
    and nothing else of the emitter has changed. *)
Theorem two_records_two_cycles (r1 r2 : string) (v1 v2 : json) (a1 a2 : string)
    (st : state) :
  JSON_parse "" = None ->
  data st = "" ->
  has_newline r1 = false -> has_newline r2 = false ->
  JSON_parse r1 = Some v1 -> JSON_parse r2 = Some v2 ->
  record_action v1 = Some a1 -> record_action v2 = Some a2 ->
  let r := tryParseStdoutData JSON_parse Number_toString (r1 +:+ newline +:+ r2) st in
  result_of r = Normal tt
  /\ parses (trace_of r) = [r1; r2]
  /\ deliveries (trace_of r)
     = dispatch st (VJson (JStr a1)) a1 [VJson v1]
       ++ dispatch st (VJson (JStr a2)) a2 [VJson v2]
  /\ data (state_of r) = ""
  /\ state_of r = st.
Proof.
  intros Hempty Hd H1 H2 P1 P2 A1 A2 r. subst r.
  assert (N1 : r1 <> "") by (intros ->; congruence).
  assert (N2 : r2 <> "") by (intros ->; congruence).
  rewrite (tryParseStdoutData_two _ _ _ H1 H2 N1 N2).
  assert (Hst : set_data "" st = st) by (rewrite <- Hd; apply set_data_same).
  destruct (decode_publish r1 st v1 (VJson (JStr a1)) a1) as (t1 & E1 & Q1 & D1);
    [by rewrite Hd | by apply record_get_Action | done |].
  destruct (decode_publish r2 st v2 (VJson (JStr a2)) a2) as (t2 & E2 & Q2 & D2);
    [by rewrite Hd | by apply record_get_Action | done |].
  rewrite Hst in E1, E2. rewrite Hd in Q1, Q2.
  unfold bind. rewrite E1, E2. unfold ret, result_of, trace_of, state_of. simpl.
  rewrite !parses_app, !deliveries_app, Q1, Q2, D1, D2. simpl.
  rewrite ?app_nil_r. done.
Qed.

(** Two chunks without newline, the first of which is no document by itself
    and which make a record together, on an empty buffer. *)
Lemma decode_split_record (c1 c2 : string) (v : json) (a : string) (st : state) :
  data st = "" ->
  has_newline c1 = false -> has_newline c2 = false ->
  JSON_parse c1 = None ->
  JSON_parse (c1 +:+ c2) = Some v ->
  record_action v = Some a ->
  let first := tryParseStdoutData JSON_parse Number_toString c1 st in
  let second := tryParseStdoutData JSON_parse Number_toString c2 (state_of first) in
  result_of first = Normal tt
  /\ deliveries (trace_of first) = []
  /\ data (state_of first) = c1
  /\ result_of second = Normal tt
  /\ parses (trace_of second) = [c1 +:+ c2]
  /\ deliveries (trace_of second) = dispatch st (VJson (JStr a)) a [VJson v]
  /\ data (state_of second) = "".
Proof.
  intros Hd H1 H2 P1 P A first second.
  assert (N2 : c2 <> "").
  { intros ->. rewrite append_empty_r in P. congruence. }
  assert (Hfirst : first = (Normal tt, set_data c1 st,
                            if decide (c1 = "") then []
                            else [EParse c1; ELogCaught (SyntaxError c1) c1])).
  { unfold first, tryParseStdoutData.
    rewrite (tryParseStdoutData_fuel_piece _ _ _ H1).
    destruct (decide (c1 = "")) as [->|].
    - by rewrite <- Hd, set_data_same.
    - rewrite decode_syntax_error; rewrite Hd; done. }
  assert (Hs : state_of first = set_data c1 st) by (by rewrite Hfirst).
  unfold second. rewrite Hs, Hfirst.
  rewrite (tryParseStdoutData_piece _ _ H2 N2).
  destruct (decode_publish c2 (set_data c1 st) v (VJson (JStr a)) a)
    as (t & E & Q & D); [done | by apply record_get_Action | done |].
  rewrite E. unfold result_of, trace_of, state_of. simpl.
  split; [done|]. split; [by destruct (decide (c1 = ""))|].
  split; [done|]. split; [done|]. split; [exact Q|]. split; [exact D | done].
Qed.

Lemma has_newline_append s t :
  has_newline (s +:+ t) = has_newline s || has_newline t.
Proof.
  induction s as [|c s IH]; [reflexivity|]. rewrite append_cons. simpl.
  by destruct (decide (c = "010"%char)).
Qed.

(** C3.  A record, that is a text ending with the closing brace of an object
    that has an [Action], split at any point in two chunks [c1] and
    [c2 +:+ "}"] without newline, and fed to a decoder with an empty buffer:
    the first chunk is only remembered (no listener is called and the buffer
    holds it); the second chunk completes the text, the parsed object is
    published under its [Action], and the buffer is empty only then. *)
Theorem split_record_is_reassembled (c1 c2 : string) (v : json) (a : string)
    (st : state) :
  rejects_fragments JSON_parse ->
  data st = "" ->
  has_newline c1 = false -> has_newline c2 = false ->
  JSON_parse (c1 +:+ c2 +:+ "}") = Some v ->
  record_action v = Some a ->
  let first := tryParseStdoutData JSON_parse Number_toString c1 st in
  let second :=
    tryParseStdoutData JSON_parse Number_toString (c2 +:+ "}") (state_of first) in
  result_of first = Normal tt
  /\ deliveries (trace_of first) = []
  /\ data (state_of first) = c1
  /\ result_of second = Normal tt
  /\ parses (trace_of second) = [c1 +:+ c2 +:+ "}"]
  /\ deliveries (trace_of second) = dispatch st (VJson (JStr a)) a [VJson v]
  /\ data (state_of second) = "".
Proof.
  intros Hfrag Hd H1 H2 P A.
  apply (decode_split_record c1 (c2 +:+ "}") v a st); try done.
  - rewrite has_newline_append, H2. reflexivity.
  - apply (Hfrag c1 c2 v P). unfold record_action in A. by destruct v.
Qed.

(** C4.  When the buffer with the chunk appended is no JSON document, nothing
    is published, the error is caught (the trace holds the parse and the log
    line only), the call returns normally and the emitter is unchanged but
    for the buffer, which now ends with the chunk. *)
Theorem parse_failure_keeps_buffer (chunk : string) (st : state) :
  has_newline chunk = false ->
  JSON_parse (data st +:+ chunk) = None ->
  let r := tryParseStdoutData JSON_parse Number_toString chunk st in
  result_of r = Normal tt
  /\ deliveries (trace_of r) = []
  /\ forallb is_log (trace_of r) = true
  /\ state_of r = set_data (data st +:+ chunk) st.
Proof.
  intros H P r. subst r. unfold tryParseStdoutData.
  rewrite (tryParseStdoutData_fuel_piece _ _ _ H).
  destruct (decide (chunk = "")) as [->|].
  - unfold state_of; simpl. by rewrite append_empty_r, set_data_same.
  - by rewrite (decode_syntax_error _ _ P).
Qed.

(** C10 (amended).  Every successfully parsed document other than [null] is
    published even when it has no [Action] member: the wildcard listeners are
    called with it, the exact pattern is the key of [undefined] (with the
    fallback listeners when nobody listens to it), no error is raised and the
    buffer is cleared. *)
Theorem document_without_Action_is_published (chunk : string) (st : state)
    (j : json) :
  j <> JNull ->
  publishes_every_document JSON_parse Number_toString chunk st j.
Proof.
  intros Hj H N P L. unfold published_under_undefined.
  rewrite (tryParseStdoutData_piece _ _ H N).
  destruct (decode_publish chunk st j VUndefined "undefined")
    as (t & E & Q & D); [done | by apply lacks_get_Action | done |].
  rewrite E. unfold result_of, trace_of, state_of. simpl.
  split; [done|]. split; [|done].
  rewrite D. unfold dispatch, unhandled_error. simpl. by rewrite andb_true_r.
Qed.

End Decoder.

(** ** Fragments under the reference reader

    What the reader does on a truncated input [t], knowing what it does on
    the whole [t +:+ u]: it fails, or it gives the same result with the rest
    cut short, or (numbers only) it stops at the end of [t]. *)

Section Fragments.

Import JsonRef.

Lemma skip_ws_app t u :
  skip_ws t <> "" -> skip_ws (t +:+ u) = skip_ws t +:+ u.
Proof.
  induction t as [|c t IH]; simpl; [done|].
  destruct (is_ws c); [exact IH | reflexivity].
Qed.

Lemma skip_ws_blank_app t u : skip_ws t = "" -> skip_ws (t +:+ u) = skip_ws u.
Proof.
  induction t as [|c t IH]; simpl; [reflexivity|].
  destruct (is_ws c); [exact IH | discriminate].
Qed.

Lemma digits_app t u :
  digits (t +:+ u)
  = match digits t with
    | (d, EmptyString) => (d +:+ (digits u).1, (digits u).2)
    | (d, r) => (d, r +:+ u)
    end.
Proof.
  induction t as [|c t IH].
  - change ("" +:+ u) with u. simpl. by destruct (digits u).
  - rewrite append_cons. simpl. destruct (is_digit c); [|reflexivity].
    rewrite IH. destruct (digits t) as [d [|c' r]]; reflexivity.
Qed.

Lemma digits_rest_empty t : (digits t).2 = "" -> digits t = (t, "").
Proof.
  induction t as [|c t IH]; simpl; [reflexivity|].
  destruct (is_digit c); [|discriminate].
  destruct (digits t) as [d r]. simpl in *. intros ->.
  by injection (IH eq_refl) as ->.
Qed.

Lemma read_int_cut t u a r :
  read_int (t +:+ u) = Some (a, r) -> same_or_cut u a r (read_int t).
Proof.
  destruct t as [|c t]; [done|]. rewrite append_cons. unfold read_int.
  destruct (bool_decide (c = "0"%char)).
  { intros [= <- <-]. right. done. }
  destruct (is_digit c); [|done].
  rewrite digits_app. destruct (digits t) as [d [|c' r']]; simpl.
  - intros _. by left.
  - intros [= <- <-]. right. done.
Qed.

Lemma starts_with_app c0 c t u :
  starts_with c0 (String c t +:+ u)
  = match starts_with c0 (String c t) with
    | Some r => Some (r +:+ u)
    | None => None
    end.
Proof. rewrite append_cons. simpl. by destruct (bool_decide (c = c0)). Qed.

Lemma read_frac_cut t u a r :
  read_frac (t +:+ u) = Some (a, r) -> same_or_cut u a r (read_frac t).
Proof.
  destruct t as [|c t]; [intros _; by left|].
  unfold read_frac. rewrite starts_with_app.
  destruct (starts_with "."%char (String c t)) as [rest|].
  - rewrite digits_app. destruct (digits rest) as [d [|c' r']]; simpl.
    + intros _. destruct d; [done | by left].
    + destruct d; [done|]. intros [= <- <-]. by right.
  - intros [= <- <-]. by right.
Qed.

Lemma read_sign_app c t u :
  read_sign (String c t +:+ u) = ((read_sign (String c t)).1, (read_sign (String c t)).2 +:+ u).
Proof.
  unfold read_sign. rewrite !starts_with_app.
  destruct (starts_with "+"%char (String c t)); [reflexivity|].
  destruct (starts_with "-"%char (String c t)); reflexivity.
Qed.

Lemma read_exp_cut t u a r :
  read_exp (t +:+ u) = Some (a, r) -> same_or_cut u a r (read_exp t).
Proof.
  destruct t as [|c t]; [intros _; by left|]. rewrite append_cons.
  unfold read_exp.
  destruct (bool_decide (c = "e"%char) || bool_decide (c = "E"%char));
    [|intros [= <- <-]; by right].
  destruct t as [|c1 t].
  - change (read_sign "") with (EmptyString, EmptyString). simpl. intros _. done.
  - rewrite read_sign_app. destruct (read_sign (String c1 t)) as [sign rest]. simpl.
    rewrite digits_app. destruct (digits rest) as [d [|c' r']]; simpl.
    + intros _. destruct d; [done | by left].
    + destruct d; [done|]. intros [= <- <-]. by right.
Qed.

(** After a stage that stopped at the end of the fragment, the later stages
    of a number read nothing. *)
Lemma read_frac_empty : read_frac "" = Some (EmptyString, EmptyString).
Proof. reflexivity. Qed.

Lemma read_exp_empty : read_exp "" = Some (EmptyString, EmptyString).
Proof. reflexivity. Qed.

Lemma read_number_cut t u a r :
  read_number (t +:+ u) = Some (a, r) -> same_or_cut u a r (read_number t).
Proof.
  destruct t as [|c t]; [done|].
  unfold read_number. rewrite starts_with_app.
  assert (Hgen : forall minus t0,
    match read_int (t0 +:+ u) with
    | Some (i, s1) =>
        match read_frac s1 with
        | Some (f, s2) =>
            match read_exp s2 with
            | Some (e, s3) => Some (minus +:+ i +:+ f +:+ e, s3)
            | None => None
            end
        | None => None
        end
    | None => None
    end = Some (a, r) ->
    same_or_cut u a r
      match read_int t0 with
      | Some (i, s1) =>
          match read_frac s1 with
          | Some (f, s2) =>
              match read_exp s2 with
              | Some (e, s3) => Some (minus +:+ i +:+ f +:+ e, s3)
              | None => None
              end
          | None => None
          end
      | None => None
      end).
  { intros minus t0.
    destruct (read_int (t0 +:+ u)) as [[i s1]|] eqn:Ei; [|done].
    pose proof (read_int_cut _ _ _ _ Ei) as Hi.
    destruct (read_int t0) as [[i' s1']|]; [|done].
    destruct Hi as [->|[-> ->]].
    { intros _. rewrite read_frac_empty, read_exp_empty. by left. }
    simpl.
    destruct (read_frac (s1' +:+ u)) as [[f s2]|] eqn:Ef; [|done].
    pose proof (read_frac_cut _ _ _ _ Ef) as Hf.
    destruct (read_frac s1') as [[f' s2']|]; [|done].
    destruct Hf as [->|[-> ->]].
    { intros _. rewrite read_exp_empty. by left. }
    simpl.
    destruct (read_exp (s2' +:+ u)) as [[e s3]|] eqn:Ee; [|done].
    pose proof (read_exp_cut _ _ _ _ Ee) as He.
    destruct (read_exp s2') as [[e' s3']|]; [|done].
    destruct He as [->|[-> ->]]; [intros _; by left|].
    intros [= <- <-]. by right. }
  destruct (starts_with "-"%char (String c t)) as [rest|].
  - apply Hgen.
  - apply Hgen.
Qed.

Lemma read_hex4_fail t u n r :
  read_hex4 (t +:+ u) = Some (n, r) -> same_or_fail u n r (read_hex4 t).
Proof.
  destruct t as [|a [|b [|c [|d t]]]]; try done.
  rewrite !append_cons. unfold read_hex4.
  destruct (hex_digit a), (hex_digit b), (hex_digit c), (hex_digit d); try done.
  by intros [= <- <-].
Qed.

Lemma read_escape_fail t u c r :
  read_escape (t +:+ u) = Some (c, r) -> same_or_fail u c r (read_escape t).
Proof.
  destruct t as [|a t]; [done|]. rewrite append_cons. unfold read_escape.
  repeat (destruct (bool_decide _); [by intros [= <- <-]|]).
  destruct (bool_decide _); [|done].
  destruct (read_hex4 (t +:+ u)) as [[n rest]|] eqn:E; [|done].
  pose proof (read_hex4_fail _ _ _ _ E) as H.
  destruct (read_hex4 t) as [[n' rest']|]; [|done].
  destruct H as [-> ->].
  destruct (bool_decide (n < 256)); [|done]. by intros [= <- <-].
Qed.

Lemma read_chars_fail f f' t u x r :
  read_chars f (t +:+ u) = Some (x, r) -> same_or_fail u x r (read_chars f' t).
Proof.
  revert f' t x r. induction f as [|f IH]; intros f' t x r; [done|].
  destruct f' as [|f']; [done|].
  destruct t as [|c t]; [done|]. rewrite append_cons. simpl.
  destruct (bool_decide (c = quote)); [by intros [= <- <-]|].
  destruct (bool_decide (c = backslash)).
  - destruct (read_escape (t +:+ u)) as [[c' rest]|] eqn:E; [|done].
    pose proof (read_escape_fail _ _ _ _ E) as H.
    destruct (read_escape t) as [[c'' rest']|]; [|done].
    destruct H as [-> ->].
    destruct (read_chars f (rest' +:+ u)) as [[x' r']|] eqn:E'; [|done].
    pose proof (IH f' _ _ _ E') as H.
    intros [= <- <-].
    destruct (read_chars f' rest') as [[x'' r'']|]; [|done].
    by destruct H as [-> ->].
  - destruct (bool_decide (nat_of_ascii c < 32)); [done|].
    destruct (read_chars f (t +:+ u)) as [[x' r']|] eqn:E'; [|done].
    pose proof (IH f' _ _ _ E') as H.
    intros [= <- <-].
    destruct (read_chars f' t) as [[x'' r'']|]; [|done].
    by destruct H as [-> ->].
Qed.

Lemma read_string_fail t u x r :
  read_string (t +:+ u) = Some (x, r) -> same_or_fail u x r (read_string t).
Proof.
  destruct t as [|c t]; [done|]. rewrite append_cons. unfold read_string.
  destruct (bool_decide (c = quote)); [|done]. apply read_chars_fail.
Qed.

Lemma strip_prefix_fail p t u r :
  strip_prefix p (t +:+ u) = Some r ->
  match strip_prefix p t with None => True | Some r' => r = r' +:+ u end.
Proof.
  revert t. induction p as [|a p IH]; intros t.
  - destruct t; simpl; by intros [= <-].
  - destruct t as [|b t]; [done|]. rewrite append_cons. simpl.
    destruct (decide (a = b)); [apply IH | done].
Qed.

Lemma skip_ws_cases t u :
  skip_ws t = ""
  \/ exists c rest, skip_ws t = String c rest /\ skip_ws (t +:+ u) = String c (rest +:+ u).
Proof.
  destruct (skip_ws t) as [|c rest] eqn:E; [by left|]. right.
  exists c, rest. split; [done|]. rewrite skip_ws_app by (by rewrite E).
  by rewrite E.
Qed.

Lemma read_value_blank f s : skip_ws s = "" -> read_value f s = None.
Proof. intros H. destruct f; simpl; [done|]. by rewrite H. Qed.

Lemma read_items_blank f s : skip_ws s = "" -> read_items f s = None.
Proof. intros H. destruct f; simpl; [done|]. by rewrite read_value_blank. Qed.

Lemma read_members_blank f s : skip_ws s = "" -> read_members f s = None.
Proof. intros H. destruct f; simpl; [done|]. by rewrite H. Qed.

Section Step.

#[local] Arguments read_string : simpl never.
#[local] Arguments read_number : simpl never.
#[local] Arguments strip_prefix : simpl never.
#[local] Arguments starts_with : simpl never.
#[local] Arguments skip_ws : simpl never.

Variable f : nat.

Hypothesis IHV : forall f' t u v r,
  read_value f (t +:+ u) = Some (v, r) -> value_cut u v r (read_value f' t).
Hypothesis IHI : forall f' t u vs r,
  read_items f (t +:+ u) = Some (vs, r) -> same_or_fail u vs r (read_items f' t).
Hypothesis IHM : forall f' t u kvs r,
  read_members f (t +:+ u) = Some (kvs, r) -> same_or_fail u kvs r (read_members f' t).

Lemma read_value_step f' t u v r :
  read_value (S f) (t +:+ u) = Some (v, r) -> value_cut u v r (read_value f' t).
Proof.
  destruct f' as [|f']; [done|]. simpl.
  destruct (skip_ws_cases t u) as [Hb|(c & rest & Ht & Htu)].
  { by rewrite Hb. }
  rewrite Ht, Htu. clear Ht Htu t.
  destruct (bool_decide (c = "["%char)).
  { destruct (skip_ws_cases rest u) as [Hb|(c2 & rest2 & H2 & H2u)].
    - rewrite Hb. simpl. rewrite (read_items_blank _ _ Hb). intros _. exact I.
    - rewrite H2, H2u.
      change (String c2 (rest2 +:+ u)) with (String c2 rest2 +:+ u).
      rewrite starts_with_app.
      destruct (starts_with "]"%char (String c2 rest2)).
      + intros [= <- <-]. by left.
      + destruct (read_items f (rest +:+ u)) as [[vs r0]|] eqn:E; [|by simpl].
        pose proof (IHI f' _ _ _ _ E) as H. intros [= <- <-].
        destruct (read_items f' rest) as [[vs' r']|]; [|by simpl].
        destruct H as [-> ->]. by left. }
  destruct (bool_decide (c = "{"%char)).
  { destruct (skip_ws_cases rest u) as [Hb|(c2 & rest2 & H2 & H2u)].
    - rewrite Hb. simpl. rewrite (read_members_blank _ _ Hb). intros _. exact I.
    - rewrite H2, H2u.
      change (String c2 (rest2 +:+ u)) with (String c2 rest2 +:+ u).
      rewrite starts_with_app.
      destruct (starts_with "}"%char (String c2 rest2)).
      + intros [= <- <-]. by left.
      + destruct (read_members f (rest +:+ u)) as [[vs r0]|] eqn:E; [|by simpl].
        pose proof (IHM f' _ _ _ _ E) as H. intros [= <- <-].
        destruct (read_members f' rest) as [[vs' r']|]; [|by simpl].
        destruct H as [-> ->]. by left. }
  change (String c (rest +:+ u)) with (String c rest +:+ u).
  destruct (bool_decide (c = quote)).
  { destruct (read_string (String c rest +:+ u)) as [[x r0]|] eqn:E; [|by simpl].
    pose proof (read_string_fail _ _ _ _ E) as H. intros [= <- <-].
    destruct (read_string (String c rest)) as [[x' r']|]; [|by simpl].
    destruct H as [-> ->]. by left. }
  destruct (bool_decide (c = "n"%char)).
  { destruct (strip_prefix "null" (String c rest +:+ u)) as [r0|] eqn:E; [|by simpl].
    pose proof (strip_prefix_fail _ _ _ _ E) as H. intros [= <- <-].
    destruct (strip_prefix "null" (String c rest)) as [r'|]; [|by simpl].
    subst. by left. }
  destruct (bool_decide (c = "t"%char)).
  { destruct (strip_prefix "true" (String c rest +:+ u)) as [r0|] eqn:E; [|by simpl].
    pose proof (strip_prefix_fail _ _ _ _ E) as H. intros [= <- <-].
    destruct (strip_prefix "true" (String c rest)) as [r'|]; [|by simpl].
    subst. by left. }
  destruct (bool_decide (c = "f"%char)).
  { destruct (strip_prefix "false" (String c rest +:+ u)) as [r0|] eqn:E; [|by simpl].
    pose proof (strip_prefix_fail _ _ _ _ E) as H. intros [= <- <-].
    destruct (strip_prefix "false" (String c rest)) as [r'|]; [|by simpl].
    subst. by left. }
  destruct (read_number (String c rest +:+ u)) as [[x r0]|] eqn:E; [|by simpl].
  pose proof (read_number_cut _ _ _ _ E) as H. intros [= <- <-].
  destruct (read_number (String c rest)) as [[x' r']|]; [|by simpl].
  destruct H as [->|[-> ->]]; [by right | by left].
Qed.

Lemma read_items_step f' t u vs r :
  read_items (S f) (t +:+ u) = Some (vs, r) -> same_or_fail u vs r (read_items f' t).
Proof.
  destruct f' as [|f']; [done|]. simpl.
  destruct (read_value f (t +:+ u)) as [[v s1]|] eqn:E; [|by simpl].
  pose proof (IHV f' _ _ _ _ E) as H.
  destruct (read_value f' t) as [[v' s1']|]; [|by simpl].
  destruct H as [[-> ->]|[-> _]]; [|by simpl].
  destruct (skip_ws_cases s1' u) as [Hb|(c & s2 & H1 & H1u)].
  { by rewrite Hb. }
  rewrite H1, H1u.
  destruct (bool_decide (c = ","%char)).
  { destruct (read_items f (s2 +:+ u)) as [[vs0 s3]|] eqn:E'; [|by simpl].
    pose proof (IHI f' _ _ _ _ E') as H. intros [= <- <-].
    destruct (read_items f' s2) as [[vs' s3']|]; [|by simpl].
    by destruct H as [-> ->]. }
  destruct (bool_decide (c = "]"%char)); [|by simpl].
  by intros [= <- <-].
Qed.

Lemma read_members_step f' t u kvs r :
  read_members (S f) (t +:+ u) = Some (kvs, r) ->
  same_or_fail u kvs r (read_members f' t).
Proof.
  destruct f' as [|f']; [done|]. simpl.
  destruct (skip_ws_cases t u) as [Hb|(c0 & rest & Ht & Htu)].
  { by rewrite Hb. }
  rewrite Ht, Htu. clear Ht Htu t.
  change (String c0 (rest +:+ u)) with (String c0 rest +:+ u).
  destruct (read_string (String c0 rest +:+ u)) as [[key s1]|] eqn:Ek; [|by simpl].
  pose proof (read_string_fail _ _ _ _ Ek) as H.
  destruct (read_string (String c0 rest)) as [[key' s1']|]; [|by simpl].
  destruct H as [-> ->].
  destruct (skip_ws_cases s1' u) as [Hb|(c1 & s2 & H1 & H1u)].
  { by rewrite Hb. }
  rewrite H1, H1u.
  destruct (bool_decide (c1 = ":"%char)); [|by simpl].
  destruct (read_value f (s2 +:+ u)) as [[v s3]|] eqn:E; [|by simpl].
  pose proof (IHV f' _ _ _ _ E) as H.
  destruct (read_value f' s2) as [[v' s3']|]; [|by simpl].
  destruct H as [[-> ->]|[-> _]]; [|by simpl].
  destruct (skip_ws_cases s3' u) as [Hb|(c & s4 & H3 & H3u)].
  { by rewrite Hb. }
  rewrite H3, H3u.
  destruct (bool_decide (c = ","%char)).
  { destruct (read_members f (s4 +:+ u)) as [[kvs0 s5]|] eqn:E'; [|by simpl].
    pose proof (IHM f' _ _ _ _ E') as H. intros [= <- <-].
    destruct (read_members f' s4) as [[kvs' s5']|]; [|by simpl].
    by destruct H as [-> ->]. }
  destruct (bool_decide (c = "}"%char)); [|by simpl].
  by intros [= <- <-].
Qed.

End Step.

Lemma read_fragment f :
  (forall f' t u v r,
     read_value f (t +:+ u) = Some (v, r) -> value_cut u v r (read_value f' t))
  /\ (forall f' t u vs r,
       read_items f (t +:+ u) = Some (vs, r) -> same_or_fail u vs r (read_items f' t))
  /\ (forall f' t u kvs r,
       read_members f (t +:+ u) = Some (kvs, r) ->
       same_or_fail u kvs r (read_members f' t)).
Proof.
  induction f as [|f (IHV & IHI & IHM)]; [done|].
  split; [|split].
  - by apply read_value_step.
  - by apply read_items_step.
  - by apply read_members_step.
Qed.

(** The reference reader has the property: a document cut before its last
    closing brace is no document. *)
Lemma JSON_parse_ref_rejects_fragments : rejects_fragments JSON_parse_ref.
Proof.
  intros c1 c2 v. unfold JSON_parse_ref. intros H Hn.
  destruct (read_value _ (c1 +:+ c2 +:+ "}")) as [[v0 rest]|] eqn:E; [|done].
  destruct (skip_ws rest) eqn:Hr; [|done]. injection H as ->.
  destruct (read_fragment (2 * String.length (c1 +:+ c2 +:+ "}") + 2)) as (HV & _).
  pose proof (HV (2 * String.length c1 + 2) _ _ _ _ E) as Hc.
  destruct (read_value (2 * String.length c1 + 2) c1) as [[v' r']|]; [|done].
  destruct Hc as [[-> ->]|(_ & _ & Hv)]; [|congruence].
  exfalso. clear E HV.
  assert (Hblank : forall a b, skip_ws (a +:+ b +:+ "}") <> "").
  { intros a b. induction a as [|x a IH].
    - change ("" +:+ b +:+ "}") with (b +:+ "}").
      induction b as [|y b IHb]; [done|].
      rewrite append_cons. simpl. by destruct (is_ws y).
    - rewrite append_cons. simpl. by destruct (is_ws x). }
  by apply (Hblank r' c2).
Qed.

End Fragments.


(** ** The subprocess *)

(** [cleanup] in one equation: a live tracked child is signalled, and in
    every other case nothing happens. *)
Lemma cleanup_run st :
  cleanup st
  = match tracked_live st with
    | Some p => (Normal tt, signalled p st, [ESignal p])
    | None => (Normal tt, st, [])
    end.
Proof.
  unfold cleanup, tracked_live, signalled, cmd_killed, kill, live.
  cbv [bind get ret modify tell]. simpl.
  destruct (cmd st) as [p|]; [|reflexivity].
  destruct (children st !! p) as [c|] eqn:E; simpl; [|by rewrite E].
  destruct (killed c) eqn:K; simpl; [reflexivity|].
  rewrite E. destruct (exited c) eqn:X; simpl; rewrite ?E, ?X; reflexivity.
Qed.

Lemma signalled_not_live p st : tracked_live st = Some p -> tracked_live (signalled p st) = None.
Proof.
  unfold tracked_live, signalled.
  destruct (cmd st) as [q|] eqn:C; [|done].
  destruct (children st !! q) as [c|] eqn:E; [|done].
  destruct (live c) eqn:L; [|done]. intros [= ->].
  rewrite E. simpl. rewrite C.
  rewrite list_lookup_insert_eq by (by eapply lookup_lt_Some). reflexivity.
Qed.

Lemma listen_run st :
  listen st
  = (Normal tt, listening (state_of (cleanup st)),
     trace_of (cleanup st) ++ listen_trace (state_of (cleanup st))).
Proof.
  unfold listen. cbv [bind get ret modify tell spawn].
  destruct (cleanup st) as [[r s1] t1] eqn:Ec.
  assert (r = Normal tt) as ->.
  { rewrite cleanup_run in Ec. destruct (tracked_live st); by inversion Ec. }
  unfold state_of, trace_of, listening, listen_trace. simpl.
  destruct (watcher s1) eqn:W; simpl; rewrite ?app_nil_r; [|reflexivity].
  destruct s1; simpl in *; subst; reflexivity.
Qed.

Lemma signalled_fields p st :
  cmd (signalled p st) = cmd st /\ watcher (signalled p st) = watcher st
  /\ data (signalled p st) = data st /\ lastSeen (signalled p st) = lastSeen st
  /\ filters (signalled p st) = filters st /\ events (signalled p st) = events st
  /\ length (children (signalled p st)) = length (children st).
Proof.
  unfold signalled. destruct (children st !! p); simpl; [|done].
  by rewrite length_insert.
Qed.

(** [cleanup] returns normally and touches nothing but the child table. *)
Lemma cleanup_fields st :
  result_of (cleanup st) = Normal tt
  /\ cmd (state_of (cleanup st)) = cmd st
  /\ watcher (state_of (cleanup st)) = watcher st
  /\ data (state_of (cleanup st)) = data st
  /\ lastSeen (state_of (cleanup st)) = lastSeen st
  /\ filters (state_of (cleanup st)) = filters st
  /\ events (state_of (cleanup st)) = events st
  /\ length (children (state_of (cleanup st))) = length (children st).
Proof.
  rewrite cleanup_run. destruct (tracked_live st) as [p|]; [|done].
  unfold result_of, state_of. simpl.
  destruct (signalled_fields p st) as (? & ? & ? & ? & ? & ? & ?). done.
Qed.

Lemma listen_fields st :
  result_of (listen st) = Normal tt
  /\ cmd (state_of (listen st)) = Some (length (children st))
  /\ watcher (state_of (listen st)) = true
  /\ data (state_of (listen st)) = data st
  /\ lastSeen (state_of (listen st)) = lastSeen st
  /\ filters (state_of (listen st)) = filters st
  /\ events (state_of (listen st)) = events st.
Proof.
  rewrite listen_run.
  destruct (cleanup_fields st) as (_ & C & W & D & L & F & E & Len).
  remember (state_of (cleanup st)) as s1.
  unfold result_of, state_of, listening. simpl. by rewrite Len.
Qed.

(** ** The watcher *)

(** Notifications that do not qualify change nothing. *)
Lemma watcher_callback_ignored event f st :
  event <> "rename" \/ (f <> "docker.sock" /\ f <> "dockerd.pid") ->
  watcher_callback event f st = (Normal tt, st, []).
Proof.
  unfold watcher_callback. intros [H|[H1 H2]].
  - by rewrite (bool_decide_eq_false_2 _ H).
  - rewrite (bool_decide_eq_false_2 _ H1), (bool_decide_eq_false_2 _ H2).
    simpl. by destruct (bool_decide (event = "rename")).
Qed.

(** The rule of the callback on a qualifying notification. *)
Lemma watcher_callback_run (f : string) (st : state) :
  f = "docker.sock" \/ f = "dockerd.pid" ->
  watcher_callback "rename" f st
  = if bool_decide (lastSeen st = Some "docker.sock") && bool_decide (f = "dockerd.pid")
    then (Normal tt, set_lastSeen (Some f) (state_of (cleanup st)), trace_of (cleanup st))
    else if bool_decide (lastSeen st = Some "dockerd.pid") && bool_decide (f = "docker.sock")
         then (Normal tt, set_lastSeen (Some f) (state_of (listen st)), trace_of (listen st))
         else (Normal tt, set_lastSeen (Some f) st, []).
Proof.
  intros Hf.
  assert (Hq : negb (bool_decide (f = "docker.sock"))
               && negb (bool_decide (f = "dockerd.pid")) = false).
  { destruct Hf as [-> | ->]; reflexivity. }
  destruct (cleanup_fields st) as (Rc & _ & _ & _ & Lc & _).
  destruct (listen_fields st) as (Rl & _ & _ & _ & Ll & _).
  destruct (cleanup st) as [[rc sc] tc] eqn:Ec.
  destruct (listen st) as [[rl sl] tl] eqn:El.
  unfold result_of, state_of, trace_of in *. simpl in *. subst rc rl.
  unfold watcher_callback. simpl. rewrite Hq.
  cbv [bind get ret modify].
  destruct (bool_decide (lastSeen st = Some "docker.sock")) eqn:B1;
    destruct (bool_decide (f = "dockerd.pid")) eqn:B2; simpl;
    rewrite ?Ec, ?Lc; simpl.
  - apply bool_decide_eq_true in B1, B2. subst f. rewrite B1. simpl.
    by rewrite app_nil_r.
  - destruct (bool_decide (lastSeen st = Some "dockerd.pid")
              && bool_decide (f = "docker.sock"));
      [rewrite El; simpl; by rewrite app_nil_r | done].
  - destruct (bool_decide (lastSeen st = Some "dockerd.pid")
              && bool_decide (f = "docker.sock"));
      [rewrite El; simpl; by rewrite app_nil_r | done].
  - destruct (bool_decide (lastSeen st = Some "dockerd.pid")
              && bool_decide (f = "docker.sock"));
      [rewrite El; simpl; by rewrite app_nil_r | done].
Qed.

(** C5.  A rename notification for the socket file or the pid file: when the
    socket file was seen last and the pid file is named, [cleanup] (stop)
    runs; when the pid file was seen last and the socket file is named,
    [listen] (restart) runs; in every other combination nothing is done to
    the pipeline; and in all these cases [lastSeen] is the notified name
    afterwards, the rest of the state being what the rule left. *)
Theorem rename_rule (f : string) (st : state) :
  f = "docker.sock" \/ f = "dockerd.pid" ->
  let r := watcher_callback "rename" f st in
  result_of r = Normal tt
  /\ lastSeen (state_of r) = Some f
  /\ (lastSeen st = Some "docker.sock" -> f = "dockerd.pid" ->
      trace_of r = trace_of (cleanup st)
      /\ state_of r = set_lastSeen (Some f) (state_of (cleanup st)))
  /\ (lastSeen st = Some "dockerd.pid" -> f = "docker.sock" ->
      trace_of r = trace_of (listen st)
      /\ state_of r = set_lastSeen (Some f) (state_of (listen st)))
  /\ (~ (lastSeen st = Some "docker.sock" /\ f = "dockerd.pid") ->
      ~ (lastSeen st = Some "dockerd.pid" /\ f = "docker.sock") ->
      trace_of r = [] /\ state_of r = set_lastSeen (Some f) st).
Proof.
  intros Hf r. subst r. rewrite (watcher_callback_run _ _ Hf).
  destruct (cleanup_fields st) as (Rc & _ & _ & _ & Lc & _).
  destruct (listen_fields st) as (Rl & _ & _ & _ & Ll & _).
  split; [by repeat case_match|]. split; [by repeat case_match|].
  split; [|split].
  - intros H1 H2. by rewrite (bool_decide_eq_true_2 _ H1), (bool_decide_eq_true_2 _ H2).
  - intros H1 H2.
    rewrite (bool_decide_eq_true_2 _ H1), (bool_decide_eq_true_2 _ H2).
    rewrite bool_decide_eq_false_2 by (rewrite H1; discriminate). done.
  - intros N1 N2.
    destruct (bool_decide (lastSeen st = Some "docker.sock") && bool_decide (f = "dockerd.pid")) eqn:B1.
    { exfalso. apply N1. apply andb_true_iff in B1 as [?%bool_decide_eq_true ?%bool_decide_eq_true]. done. }
    destruct (bool_decide (lastSeen st = Some "dockerd.pid") && bool_decide (f = "docker.sock")) eqn:B2.
    { exfalso. apply N2. apply andb_true_iff in B2 as [?%bool_decide_eq_true ?%bool_decide_eq_true]. done. }
    done.
Qed.

(** ** At most one live subprocess *)

Lemma live_from_app b cs ds :
  live_from b (cs ++ ds) = live_from b cs ++ live_from (b + length cs) ds.
Proof.
  revert b. induction cs as [|c cs IH]; intros b; simpl.
  - by rewrite Nat.add_0_r.
  - rewrite IH, <- app_assoc. by rewrite Nat.add_succ_r.
Qed.

Lemma live_from_idle b cs :
  (forall p c, cs !! p = Some c -> live c = false) -> live_from b cs = [].
Proof.
  revert b. induction cs as [|c cs IH]; intros b H; [reflexivity|].
  simpl. rewrite (H 0 c eq_refl). simpl.
  apply IH. intros p c' Hp. exact (H (S p) c' Hp).
Qed.

Lemma live_from_single b cs q c :
  cs !! q = Some c -> live c = true ->
  (forall p c', cs !! p = Some c' -> live c' = true -> p = q) ->
  live_from b cs = [b + q].
Proof.
  revert b q. induction cs as [|c0 cs IH]; intros b q Hq Hl Hu; [done|].
  destruct q as [|q]; simpl in *.
  - injection Hq as ->. rewrite Hl. simpl. rewrite Nat.add_0_r.
    f_equal. apply live_from_idle. intros p c' Hp.
    destruct (live c') eqn:L; [|done].
    by specialize (Hu (S p) c' Hp L).
  - destruct (live c0) eqn:L0.
    { by specialize (Hu 0 c0 eq_refl L0). }
    simpl. rewrite (IH (S b) q Hq Hl).
    + by rewrite Nat.add_succ_r.
    + intros p c' Hp L. specialize (Hu (S p) c' Hp L). lia.
Qed.

(** Under single ownership the live children are the tracked one, if live. *)
Lemma single_owner_live_pids st :
  single_owner st ->
  live_pids st = match tracked_live st with Some p => [p] | None => [] end.
Proof.
  intros H. unfold live_pids, tracked_live.
  destruct (cmd st) as [q|] eqn:C.
  - destruct (children st !! q) as [c|] eqn:E.
    + destruct (live c) eqn:L.
      * rewrite (live_from_single 0 _ q c E L); [done|].
        intros p c' Hp Lp. pose proof (H p c' Hp Lp) as Hc.
        rewrite C in Hc. simplify_eq; congruence.
      * apply live_from_idle. intros p c' Hp.
        destruct (live c') eqn:Lp; [|done].
        pose proof (H p c' Hp Lp) as Hc. rewrite C in Hc. simplify_eq; congruence.
    + apply live_from_idle. intros p c' Hp.
      destruct (live c') eqn:Lp; [|done].
      pose proof (H p c' Hp Lp) as Hc. rewrite C in Hc. simplify_eq; congruence.
  - apply live_from_idle. intros p c' Hp.
    destruct (live c') eqn:Lp; [|done].
    pose proof (H p c' Hp Lp) as Hc. rewrite C in Hc. simplify_eq; congruence.
Qed.

Lemma idle_single_owner st : idle st -> single_owner st.
Proof. intros H p c Hp L. rewrite (H p c Hp) in L. discriminate. Qed.

(** After [cleanup] no child is live. *)
Lemma cleanup_idle st : single_owner st -> idle (state_of (cleanup st)).
Proof.
  intros H. rewrite cleanup_run.
  destruct (tracked_live st) as [p|] eqn:T; unfold state_of; simpl.
  - unfold tracked_live in T.
    destruct (cmd st) as [q|] eqn:C; [|done].
    destruct (children st !! q) as [c|] eqn:E; [|done].
    destruct (live c); [|done]. injection T as ->.
    unfold signalled. rewrite E. intros i c' Hi. simpl in Hi.
    destruct (decide (i = p)) as [->|Hne].
    + rewrite list_lookup_insert_eq in Hi by (by eapply lookup_lt_Some).
      by injection Hi as <-.
    + rewrite list_lookup_insert_ne in Hi by done.
      destruct (live c') eqn:L; [|done].
      specialize (H i c' Hi L). congruence.
  - intros i c' Hi. destruct (live c') eqn:L; [|done].
    specialize (H i c' Hi L). unfold tracked_live in T.
    rewrite H, Hi, L in T. discriminate.
Qed.

(** The state [listen] builds on an idle table has one live child, the new
    one, and tracks it. *)
Lemma listening_live_pids s : idle s -> live_pids (listening s) = [length (children s)].
Proof.
  intros H. unfold live_pids, listening. simpl.
  rewrite live_from_app, (live_from_idle 0 _ H). reflexivity.
Qed.

Lemma listening_single_owner s : idle s -> single_owner (listening s).
Proof.
  intros H p c Hp L. unfold listening in *. simpl in *.
  destruct (decide (p < length (children s))) as [Hlt|Hge].
  - rewrite lookup_app_l in Hp by done. rewrite (H p c Hp) in L. discriminate.
  - apply lookup_lt_Some in Hp as Hb. rewrite length_app in Hb. simpl in Hb.
    f_equal. lia.
Qed.

Lemma listen_single_owner st : single_owner st -> single_owner (state_of (listen st)).
Proof.
  intros H. rewrite listen_run. unfold state_of at 1. simpl.
  apply listening_single_owner. by apply cleanup_idle.
Qed.

Lemma mark_exited_single_owner p st : single_owner st -> single_owner (mark_exited p st).
Proof.
  intros H i c Hi L. unfold mark_exited in *.
  destruct (children st !! p) as [c0|] eqn:E; [|by apply (H i c)].
  simpl in *. destruct (decide (i = p)) as [->|Hne].
  - rewrite list_lookup_insert_eq in Hi by (by eapply lookup_lt_Some).
    injection Hi as <-. unfold live in L. simpl in L.
    by rewrite andb_false_r in L.
  - rewrite list_lookup_insert_ne in Hi by done. by apply (H i c).
Qed.

Lemma forEach_preserves {A} (P : state -> Prop) (f : A -> M unit) xs :
  (forall x st, P st -> P (state_of (f x st))) ->
  forall st, P st -> P (state_of (forEach f xs st)).
Proof.
  intros Hf. induction xs as [|x xs IH]; intros st H; [exact H|].
  simpl. unfold bind. specialize (Hf x st H).
  destruct (f x st) as [[[[]| |] s1] t1]; unfold state_of in *; simpl in *;
    try exact Hf.
  specialize (IH s1 Hf).
  by destruct (forEach f xs s1) as [[r2 s2] t2].
Qed.

Section Lifecycle.

Variable JSON_parse : string -> option json.
Variable Number_toString : string -> string.

(** What a callback can change besides the buffer, the listeners and
    [lastSeen]: nothing, unless it stops or restarts the subprocess. *)
Ltac unchanged := left; repeat split; reflexivity.

Lemma handle_cases i st :
  let s := state_of (handle JSON_parse Number_toString i st) in
  (cmd s = cmd st /\ children s = children st /\ filters s = filters st)
  \/ (exists base, s = set_lastSeen (lastSeen s) (state_of (cleanup base))
        /\ cmd base = cmd st /\ children base = children st
        /\ filters base = filters st)
  \/ (exists base, s = set_lastSeen (lastSeen s) (state_of (listen base))
        /\ cmd base = cmd st /\ children base = children st
        /\ filters base = filters st)
  \/ (exists p, s = mark_exited p st).
Proof.
  destruct i as [|pattern l|event f|p chunk|p error|p]; simpl.
  - right. right. left. exists st. split; [|repeat split; reflexivity].
    by destruct (state_of (listen st)).
  - unchanged.
  - cbv [bind get]. destruct (watcher st); [|unchanged].
    destruct (decide (event = "rename")) as [->|Hn];
      [|rewrite watcher_callback_ignored by (left; done); unchanged].
    destruct (decide (f = "docker.sock")) as [Hs|Hs];
      [|destruct (decide (f = "dockerd.pid")) as [Hp|Hp]].
    3:{ rewrite watcher_callback_ignored by (right; done). unchanged. }
    all: rewrite watcher_callback_run by tauto.
    all: destruct (bool_decide (lastSeen st = Some "docker.sock")
                   && bool_decide (f = "dockerd.pid"));
      [right; left; exists st; repeat split; reflexivity|].
    all: destruct (bool_decide (lastSeen st = Some "dockerd.pid")
                   && bool_decide (f = "docker.sock"));
      [right; right; left; exists st; repeat split; reflexivity | unchanged].
  - cbv [bind get]. destruct (decide (p < length (children st))); [|unchanged].
    destruct (tryParseStdoutData_total JSON_parse Number_toString chunk st)
      as (d & t & ->). unchanged.
  - cbv [bind get]. destruct (decide (p < length (children st))); [|unchanged].
    unfold on_child_error. cbv [bind tell ret].
    pose proof (emit_state Number_toString (VJson (JStr "error")) [VError error] st) as E.
    destruct (emit Number_toString (VJson (JStr "error")) [VError error] st)
      as [[[| |] s1] t1]; unfold state_of in *; simpl in *; subst; unchanged.
  - right. right. right. by exists p.
Qed.

Lemma set_lastSeen_single_owner l st : single_owner st -> single_owner (set_lastSeen l st).
Proof. intros H p c. apply H. Qed.

Lemma single_owner_ext s st :
  cmd s = cmd st -> children s = children st -> single_owner st -> single_owner s.
Proof. intros C E H p c. rewrite C, E. apply H. Qed.

Lemma handle_single_owner i st :
  single_owner st -> single_owner (state_of (handle JSON_parse Number_toString i st)).
Proof.
  intros H.
  destruct (handle_cases i st) as [(C & E & _)|[(b & -> & C & E & _)|[(b & -> & C & E & _)|(p & ->)]]].
  - by apply (single_owner_ext _ st).
  - apply set_lastSeen_single_owner, idle_single_owner, cleanup_idle.
    by apply (single_owner_ext _ st).
  - apply set_lastSeen_single_owner, listen_single_owner.
    by apply (single_owner_ext _ st).
  - by apply mark_exited_single_owner.
Qed.

(** The invariant of the supervisor: at any point of any run from a fresh
    emitter, every live child is the tracked one. *)
Lemma run_single_owner inputs st :
  single_owner st -> single_owner (state_of (run JSON_parse Number_toString inputs st)).
Proof. apply forEach_preserves. intros i s. apply handle_single_owner. Qed.

Lemma constructor_single_owner fs : single_owner (constructor fs).
Proof. intros p c Hp. simpl in Hp. by destruct p. Qed.

Lemma at_most_one_live inputs fs :
  length (live_pids (state_of (run JSON_parse Number_toString inputs (constructor fs)))) <= 1.
Proof.
  rewrite single_owner_live_pids
    by apply run_single_owner, constructor_single_owner.
  destruct (tracked_live _); simpl; lia.
Qed.

End Lifecycle.

Section Supervisor.

Variable JSON_parse : string -> option json.
Variable Number_toString : string -> string.

Lemma mark_exited_filters p st : filters (mark_exited p st) = filters st.
Proof. unfold mark_exited. by destruct (children st !! p). Qed.

(** The filters given at construction are never changed. *)
Lemma run_filters inputs st :
  filters (state_of (run JSON_parse Number_toString inputs st)) = filters st.
Proof.
  apply (forEach_preserves (fun s => filters s = filters st)); [|reflexivity].
  intros i s Hs.
  destruct (handle_cases JSON_parse Number_toString i s)
    as [(_ & _ & F)|[(b & -> & _ & _ & F)|[(b & -> & _ & _ & F)|(p & ->)]]].
  - congruence.
  - destruct (cleanup_fields b) as (_ & _ & _ & _ & _ & Fc & _).
    simpl. congruence.
  - destruct (listen_fields b) as (_ & _ & _ & _ & _ & Fl & _).
    simpl. congruence.
  - rewrite mark_exited_filters. exact Hs.
Qed.

(** C6.  On an emitter reached by any run from its construction, whose
    tracked subprocess is live, a further [listen()] first signals that
    subprocess and only then spawns the next one; afterwards the new child is
    the tracked one and the only live one.  Before the call the old child
    was the only live one, and whatever happens later never leaves more than
    one live child. *)
Theorem listen_again_leaves_one_live (fs : list string) (inputs : list (input))
    (p : pid) :
  let st := state_of (run JSON_parse Number_toString inputs (constructor fs)) in
  tracked_live st = Some p ->
  let r := listen st in
  live_pids st = [p]
  /\ result_of r = Normal tt
  /\ trace_of r
     = ESignal p
       :: (if watcher st then [] else [EWatch "/var/run"])
       ++ [ELogSpawning;
           ESpawn (length (children st))
             ("docker events --format '{{json .}}' " +:+ filter_args fs) true;
           EOnExit]
  /\ p < length (children st)
  /\ cmd (state_of r) = Some (length (children st))
  /\ live_pids (state_of r) = [length (children st)]
  /\ (forall more,
        length (live_pids
                  (state_of (run JSON_parse Number_toString more (state_of r)))) <= 1).
Proof.
  intros st T r.
  assert (Hown : single_owner st)
    by apply run_single_owner, constructor_single_owner.
  assert (Hf : filters st = fs) by apply run_filters.
  destruct (signalled_fields p st) as (C & W & D & L & F & E & Len).
  split. { by rewrite (single_owner_live_pids _ Hown), T. }
  assert (Hc : cleanup st = (Normal tt, signalled p st, [ESignal p])).
  { by rewrite cleanup_run, T. }
  assert (Hr : r = (Normal tt, listening (signalled p st),
                    ESignal p :: listen_trace (signalled p st))).
  { unfold r. rewrite listen_run, Hc. reflexivity. }
  assert (Hidle : idle (signalled p st)).
  { pose proof (cleanup_idle st Hown) as Hi. by rewrite Hc in Hi. }
  rewrite Hr. unfold result_of, trace_of, state_of. simpl.
  split; [done|]. split.
  { unfold listen_trace. by rewrite W, F, Len, Hf. }
  split.
  { unfold tracked_live in T. destruct (cmd st) as [q|]; [|done].
    destruct (children st !! q) as [c|] eqn:Eq; [|done].
    destruct (live c); [|done]. injection T as ->.
    by eapply lookup_lt_Some. }
  split; [by rewrite Len|].
  split. { rewrite <- Len. by apply listening_live_pids. }
  intros more.
  rewrite single_owner_live_pids
    by (apply run_single_owner, listening_single_owner, Hidle).
  case_match; simpl; lia.
Qed.

(** C7.  [cleanup] (stop) always returns normally, and running it again right
    after does nothing.  It does nothing at all when no subprocess is
    tracked, and when the tracked one has been signalled already or has
    exited.  Otherwise it delivers one termination signal and returns with the
    child marked killed and not yet exited: the exit is not awaited. *)
Theorem cleanup_idempotent (st : state) :
  let r := cleanup st in
  result_of r = Normal tt
  /\ cleanup (state_of r) = (Normal tt, state_of r, [])
  /\ (cmd st = None -> r = (Normal tt, st, []))
  /\ (forall p c, cmd st = Some p -> children st !! p = Some c ->
        killed c = true \/ exited c = true -> r = (Normal tt, st, []))
  /\ (forall p c, cmd st = Some p -> children st !! p = Some c ->
        killed c = false -> exited c = false ->
        trace_of r = [ESignal p]
        /\ state_of r
           = set_children (<[p := mkChild (command c) (shell c) true false]> (children st)) st).
Proof.
  intros r. subst r. rewrite cleanup_run.
  destruct (tracked_live st) as [q|] eqn:T.
  - unfold result_of, state_of, trace_of. simpl.
    split; [done|]. split.
    { by rewrite cleanup_run, (signalled_not_live _ _ T). }
    unfold tracked_live in T.
    destruct (cmd st) as [q'|] eqn:C; [|done].
    destruct (children st !! q') as [c'|] eqn:E; [|done].
    destruct (live c') eqn:L; [|done]. injection T as ->.
    unfold live in L. apply andb_true_iff in L as [K X].
    apply negb_true_iff in K, X.
    split; [done|]. split.
    + intros p c [= <-] Hc [H|H]; simplify_eq; congruence.
    + intros p c [= <-] Hc _ _. simplify_eq.
      unfold signalled. rewrite E, X. done.
  - unfold result_of, state_of, trace_of. simpl.
    split; [done|]. split; [by rewrite cleanup_run, T|].
    split; [done|]. split; [done|].
    intros p c C E K X. unfold tracked_live, live in T.
    rewrite C, E, K, X in T. discriminate.
Qed.

(** C8.  On an emitter built with [fs] and reached by any run, [listen]
    spawns exactly one subprocess: the [docker events] command with the
    format ['{{json .}}'], followed by one [--filter <value>] per filter,
    separated by spaces and in the order of [fs], launched through a shell;
    the child table records it under the tracked slot. *)
Theorem spawn_command (fs : list string) (inputs : list input) :
  let st := state_of (run JSON_parse Number_toString inputs (constructor fs)) in
  let r := listen st in
  let command :=
    "docker events --format '{{json .}}' "
    +:+ String.concat " " (map (fun filter => "--filter " +:+ filter) fs) in
  spawned (trace_of r) = [(length (children st), command, true)]
  /\ cmd (state_of r) = Some (length (children st))
  /\ children (state_of r) !! length (children st)
     = Some (mkChild command true false false).
Proof.
  intros st r command.
  assert (Hf : filters st = fs) by apply run_filters.
  destruct (cleanup_fields st) as (_ & _ & W & _ & _ & F & _ & Len).
  unfold r. rewrite listen_run.
  remember (state_of (cleanup st)) as s1.
  unfold trace_of at 1, state_of at 1 2. simpl.
  assert (Hs : forall t, spawned (t ++ listen_trace s1)
                         = spawned t ++ [(length (children s1), "docker events --format '{{json .}}' " +:+ filter_args (filters s1), true)]).
  { intros t. induction t as [|e t IH]; simpl.
    - unfold listen_trace. by destruct (watcher s1).
    - destruct e; simpl; by rewrite IH. }
  rewrite Hs, F, Hf, Len.
  split.
  { rewrite cleanup_run. by destruct (tracked_live st). }
  split; [done|].
  rewrite <- Len. by rewrite lookup_app_r, Nat.sub_diag by done.
Qed.

(** C9.  Neither [listen] nor [cleanup] touches the decoder buffer, which is
    empty at construction; so the first chunk that arrives after a restart is
    parsed with whatever the buffer still held put in front of it. *)
Theorem buffer_survives_restart (st : state) (chunk : string) :
  has_newline chunk = false -> chunk <> "" ->
  (forall fs, data (constructor fs) = "")
  /\ data (state_of (cleanup st)) = data st
  /\ data (state_of (listen st)) = data st
  /\ parses (trace_of (tryParseStdoutData JSON_parse Number_toString chunk
                         (state_of (listen st))))
     = [data st +:+ chunk]
  /\ parses (trace_of (tryParseStdoutData JSON_parse Number_toString chunk
                         (state_of (cleanup st))))
     = [data st +:+ chunk].
Proof.
  intros H N.
  destruct (cleanup_fields st) as (_ & _ & _ & Dc & _).
  destruct (listen_fields st) as (_ & _ & _ & Dl & _).
  split; [done|]. split; [done|]. split; [done|].
  rewrite !(tryParseStdoutData_piece _ _ _ _ H N), !decode_parses.
  by rewrite Dc, Dl.
Qed.

End Supervisor.

(** ** Concrete runs *)

Lemma two_records_two_cycles_witness :
  JsonRef.JSON_parse_ref "" = None
  /\ data sample_emitter = ""
  /\ has_newline start_line = false /\ has_newline die_line = false
  /\ JsonRef.JSON_parse_ref start_line = Some start_record
  /\ JsonRef.JSON_parse_ref die_line = Some die_record
  /\ record_action start_record = Some "start"
  /\ record_action die_record = Some "die"
  /\ (let r := tryParseStdoutData JsonRef.JSON_parse_ref id
                 (start_line +:+ newline +:+ die_line) sample_emitter in
      result_of r = Normal tt
      /\ parses (trace_of r) = [start_line; die_line]
      /\ deliveries (trace_of r)
         = dispatch sample_emitter (VJson (JStr "start")) "start" [VJson start_record]
           ++ dispatch sample_emitter (VJson (JStr "die")) "die" [VJson die_record]
      /\ data (state_of r) = ""
      /\ state_of r = sample_emitter).
Proof.
  repeat (split; [vm_compute; reflexivity|]).
  apply (two_records_two_cycles JsonRef.JSON_parse_ref id start_line die_line
           start_record die_record "start" "die" sample_emitter);
    vm_compute; reflexivity.
Defined.

Lemma split_record_is_reassembled_witness :
  rejects_fragments JsonRef.JSON_parse_ref
  /\ data sample_emitter = ""
  /\ has_newline (JsonRef.js "{'Type':'container','Act") = false
  /\ has_newline (JsonRef.js "ion':'die'") = false
  /\ JsonRef.JSON_parse_ref
       (JsonRef.js "{'Type':'container','Act" +:+ JsonRef.js "ion':'die'" +:+ "}")
     = Some die_record
  /\ record_action die_record = Some "die"
  /\ (let first := tryParseStdoutData JsonRef.JSON_parse_ref id
                     (JsonRef.js "{'Type':'container','Act") sample_emitter in
      let second := tryParseStdoutData JsonRef.JSON_parse_ref id
                      (JsonRef.js "ion':'die'" +:+ "}") (state_of first) in
      result_of first = Normal tt
      /\ deliveries (trace_of first) = []
      /\ data (state_of first) = JsonRef.js "{'Type':'container','Act"
      /\ result_of second = Normal tt
      /\ parses (trace_of second)
         = [JsonRef.js "{'Type':'container','Act" +:+ JsonRef.js "ion':'die'" +:+ "}"]
      /\ deliveries (trace_of second)
         = dispatch sample_emitter (VJson (JStr "die")) "die" [VJson die_record]
      /\ data (state_of second) = "").
Proof.
  split; [exact JSON_parse_ref_rejects_fragments|].
  split; [vm_compute; reflexivity|].
  split; [vm_compute; reflexivity|].
  split; [vm_compute; reflexivity|].
  split; [vm_compute; reflexivity|].
  split; [vm_compute; reflexivity|].
  apply (split_record_is_reassembled JsonRef.JSON_parse_ref id
           (JsonRef.js "{'Type':'container','Act") (JsonRef.js "ion':'die'")
           die_record "die" sample_emitter);
    [exact JSON_parse_ref_rejects_fragments | vm_compute; reflexivity ..].
Defined.

Lemma parse_failure_keeps_buffer_witness :
  has_newline (JsonRef.js "'Action':'die'") = false
  /\ JsonRef.JSON_parse_ref
       (data (set_data (JsonRef.js "{'Type':'container',") sample_emitter)
        +:+ JsonRef.js "'Action':'die'") = None
  /\ (let st := set_data (JsonRef.js "{'Type':'container',") sample_emitter in
      let r := tryParseStdoutData JsonRef.JSON_parse_ref id
                 (JsonRef.js "'Action':'die'") st in
      result_of r = Normal tt
      /\ deliveries (trace_of r) = []
      /\ forallb is_log (trace_of r) = true
      /\ state_of r = set_data (data st +:+ JsonRef.js "'Action':'die'") st).
Proof.
  repeat (split; [vm_compute; reflexivity|]).
  apply (parse_failure_keeps_buffer JsonRef.JSON_parse_ref id
           (JsonRef.js "'Action':'die'")
           (set_data (JsonRef.js "{'Type':'container',") sample_emitter));
    vm_compute; reflexivity.
Defined.

Lemma rename_rule_witness :
  ("dockerd.pid" = "docker.sock" \/ "dockerd.pid" = "dockerd.pid")
  /\ (let st := set_lastSeen (Some "docker.sock") (state_of (listen sample_emitter)) in
      let r := watcher_callback "rename" "dockerd.pid" st in
      result_of r = Normal tt
      /\ lastSeen (state_of r) = Some "dockerd.pid"
      /\ (lastSeen st = Some "docker.sock" -> "dockerd.pid" = "dockerd.pid" ->
          trace_of r = trace_of (cleanup st)
          /\ state_of r = set_lastSeen (Some "dockerd.pid") (state_of (cleanup st)))
      /\ (lastSeen st = Some "dockerd.pid" -> "dockerd.pid" = "docker.sock" ->
          trace_of r = trace_of (listen st)
          /\ state_of r = set_lastSeen (Some "dockerd.pid") (state_of (listen st)))
      /\ (~ (lastSeen st = Some "docker.sock" /\ "dockerd.pid" = "dockerd.pid") ->
          ~ (lastSeen st = Some "dockerd.pid" /\ "dockerd.pid" = "docker.sock") ->
          trace_of r = [] /\ state_of r = set_lastSeen (Some "dockerd.pid") st)).
Proof.
  split; [right; reflexivity|].
  apply (rename_rule "dockerd.pid"
           (set_lastSeen (Some "docker.sock") (state_of (listen sample_emitter)))).
  right; reflexivity.
Defined.

Lemma listen_again_leaves_one_live_witness :
  tracked_live
    (state_of (run JsonRef.JSON_parse_ref id restarted_inputs
                 (constructor ["type=container"]))) = Some 1
  /\ (let st := state_of (run JsonRef.JSON_parse_ref id restarted_inputs
                            (constructor ["type=container"])) in
      let r := listen st in
      live_pids st = [1]
      /\ result_of r = Normal tt
      /\ trace_of r
         = ESignal 1
           :: (if watcher st then [] else [EWatch "/var/run"])
           ++ [ELogSpawning;
               ESpawn (length (children st))
                 ("docker events --format '{{json .}}' "
                  +:+ filter_args ["type=container"]) true;
               EOnExit]
      /\ 1 < length (children st)
      /\ cmd (state_of r) = Some (length (children st))
      /\ live_pids (state_of r) = [length (children st)]
      /\ (forall more,
            length (live_pids
                      (state_of (run JsonRef.JSON_parse_ref id more (state_of r)))) <= 1)).
Proof.
  split; [vm_compute; reflexivity|].
  apply (listen_again_leaves_one_live JsonRef.JSON_parse_ref id
           ["type=container"] restarted_inputs 1).
  vm_compute; reflexivity.
Defined.

Lemma buffer_survives_restart_witness :
  has_newline (JsonRef.js "ion':'die'}") = false
  /\ JsonRef.js "ion':'die'}" <> ""
  /\ (let st := set_data (JsonRef.js "{'Type':'container','Act")
                  (state_of (listen sample_emitter)) in
      (forall fs, data (constructor fs) = "")
      /\ data (state_of (cleanup st)) = data st
      /\ data (state_of (listen st)) = data st
      /\ parses (trace_of (tryParseStdoutData JsonRef.JSON_parse_ref id
                             (JsonRef.js "ion':'die'}") (state_of (listen st))))
         = [data st +:+ JsonRef.js "ion':'die'}"]
      /\ parses (trace_of (tryParseStdoutData JsonRef.JSON_parse_ref id
                             (JsonRef.js "ion':'die'}") (state_of (cleanup st))))
         = [data st +:+ JsonRef.js "ion':'die'}"]).
Proof.
  split; [vm_compute; reflexivity|].
  split; [vm_compute; discriminate|].
  apply (buffer_survives_restart JsonRef.JSON_parse_ref id
           (set_data (JsonRef.js "{'Type':'container','Act")
              (state_of (listen sample_emitter)))
           (JsonRef.js "ion':'die'}")).
  - vm_compute; reflexivity.
  - vm_compute; discriminate.
Defined.

Lemma document_without_Action_is_published_witness :
  JObj [("Type", JStr "container")] <> JNull
  /\ has_newline (JsonRef.js "{'Type':'container'}") = false
  /\ JsonRef.js "{'Type':'container'}" <> ""
  /\ JsonRef.JSON_parse_ref (data sample_emitter +:+ JsonRef.js "{'Type':'container'}")
     = Some (JObj [("Type", JStr "container")])
  /\ lacks_Action (JObj [("Type", JStr "container")]) = true
  /\ published_under_undefined JsonRef.JSON_parse_ref id
       (JsonRef.js "{'Type':'container'}") sample_emitter
       (JObj [("Type", JStr "container")]).
Proof.
  split; [discriminate|].
  split; [vm_compute; reflexivity|].
  split; [vm_compute; discriminate|].
  split; [vm_compute; reflexivity|].
  split; [reflexivity|].
  apply (document_without_Action_is_published JsonRef.JSON_parse_ref id
           (JsonRef.js "{'Type':'container'}") sample_emitter
           (JObj [("Type", JStr "container")])).
  - discriminate.
  - vm_compute; reflexivity.
  - vm_compute; discriminate.
  - vm_compute; reflexivity.
  - reflexivity.
Defined.

(** C10 fails as stated: the document [null] parses and has no [Action]
    member, yet reading [null.Action] throws inside the [try]; the wildcard
    listener is not called. *)
Lemma null_document_is_not_published :
  ~ publishes_every_document JsonRef.JSON_parse_ref id "null" sample_emitter JNull.
Proof.
  intros H.
  assert (H1 : has_newline "null" = false) by reflexivity.
  assert (H2 : "null" <> "") by discriminate.
  assert (H3 : JsonRef.JSON_parse_ref (data sample_emitter +:+ "null") = Some JNull)
    by (vm_compute; reflexivity).
  destruct (H H1 H2 H3 eq_refl) as (_ & D & _).
  vm_compute in D. discriminate D.
Qed.

(** The two records of [two_records_two_cycles_witness] reach the wildcard
    listener and the [start] listener, then the wildcard listener and, [die]
    having no listener, the fallback one. *)
Example two_records_deliveries :
  deliveries
    (trace_of (tryParseStdoutData JsonRef.JSON_parse_ref id
                 (start_line +:+ newline +:+ die_line) sample_emitter))
  = [ECall 1 [VJson start_record]; ECall 2 [VJson start_record];
     ECall 1 [VJson die_record]; ECall 3 [VJson die_record]].
Proof. vm_compute. reflexivity. Qed.

(** The line of [docker events] ends with a newline: the empty last piece is
    skipped. *)
Example trailing_newline_is_skipped :
  parses
    (trace_of (tryParseStdoutData JsonRef.JSON_parse_ref id
                 (start_line +:+ newline) sample_emitter))
  = [start_line].
Proof. vm_compute. reflexivity. Qed.

Example spawn_command_two_filters :
  spawned (trace_of (listen (constructor ["type=container"; "event=start"])))
  = [(0, "docker events --format '{{json .}}' --filter type=container --filter event=start",
      true)].
Proof. vm_compute. reflexivity. Qed.

Example spawn_command_no_filter :
  spawned (trace_of (listen (constructor [])))
  = [(0, "docker events --format '{{json .}}' ", true)].
Proof. vm_compute. reflexivity. Qed.

(** The spawn failure of [listen] with only a fallback listener: the
    ['error'] event is thrown out of the handler. *)
Example child_error_is_thrown :
  on_child_error id "spawn docker ENOENT" (subscribe [("", 7)] (constructor []))
  = (Throw (ThrownValue (VError "spawn docker ENOENT")),
     subscribe [("", 7)] (constructor []),
     [ELogFailedToStart (VError "spawn docker ENOENT")]).
Proof. vm_compute. reflexivity. Qed.

(** The socket goes away and comes back: the first child is signalled when
    the pid file follows the socket file, and a second one is spawned when the
    socket file follows the pid file; the watcher is installed once. *)
Example socket_removed_then_created :
  trace_of (run JsonRef.JSON_parse_ref id restarted_inputs (constructor ["type=container"]))
  = [EWatch "/var/run"; ELogSpawning;
     ESpawn 0 "docker events --format '{{json .}}' --filter type=container" true;
     EOnExit;
     ESignal 0;
     ELogSpawning;
     ESpawn 1 "docker events --format '{{json .}}' --filter type=container" true;
     EOnExit]
  /\ lastSeen (state_of (run JsonRef.JSON_parse_ref id restarted_inputs
                           (constructor ["type=container"])))
     = Some "docker.sock".
Proof. vm_compute. split; reflexivity. Qed.

(** More fuel changes nothing. *)
Example fuel_is_enough :
  tryParseStdoutData_fuel JsonRef.JSON_parse_ref id 7
    (start_line +:+ newline +:+ newline +:+ die_line +:+ newline) sample_emitter
  = tryParseStdoutData JsonRef.JSON_parse_ref id
      (start_line +:+ newline +:+ newline +:+ die_line +:+ newline) sample_emitter.
Proof. apply (tryParseStdoutData_fuel_enough JsonRef.JSON_parse_ref id 5). Qed.

(** A line as [docker events --format '{{json .}}'] prints it. *)
Example JSON_parse_ref_docker_line :
  record_action
    <$> JsonRef.JSON_parse_ref
          (JsonRef.js "{'status':'die','id':'4f2a','from':'alpine','Type':'container','Action':'die','Actor':{'ID':'4f2a','Attributes':{'exitCode':'0','image':'alpine','name':'web'}},'scope':'local','time':1700000000,'timeNano':1700000000123456789}")
  = Some (Some "die").
Proof. vm_compute. reflexivity. Qed.

Example JSON_parse_ref_escapes :
  JsonRef.JSON_parse_ref (JsonRef.js "['a\nb', 'A', [], {}, [[]], -0.5E+2]")
  = Some (JArr [JStr (String "a" (String "010" "b")); JStr "A"; JArr []; JObj [];
                JArr [JArr []]; JNum "-0.5E+2"]).
Proof. vm_compute. reflexivity. Qed.

(** Of two members with the same name the last one is read. *)
Example last_duplicate_wins :
  record_action <$> JsonRef.JSON_parse_ref (JsonRef.js "{'Action':'start','Action':'die'}")
  = Some (Some "die").
Proof. vm_compute. reflexivity. Qed.

(** ** More on the decoder *)

Lemma bind_ret_r (m : M unit) st :
  (exists s t, m st = (Normal tt, s, t)) -> bind m (fun _ => ret tt) st = m st.
Proof.
  intros (s & t & E). unfold bind, ret. rewrite E. by rewrite app_nil_r.
Qed.

Lemma bind_assoc {A B C} (m : M A) (f : A -> M B) (g : B -> M C) st :
  bind (bind m f) g st = bind m (fun a => bind (f a) g) st.
Proof.
  unfold bind. destruct (m st) as [[[a| |] s1] t1]; try reflexivity.
  destruct (f a s1) as [[[b| |] s2] t2]; try reflexivity.
  destruct (g b s2) as [[r s3] t3]. by rewrite app_assoc.
Qed.

Lemma bind_ext {A B} (m : M A) (k k' : A -> M B) st :
  (forall a s, k a s = k' a s) -> bind m k st = bind m k' st.
Proof.
  intros H. unfold bind. destruct (m st) as [[[a| |] s1] t1]; try reflexivity.
  by rewrite H.
Qed.

Lemma forEach_app {A} (f : A -> M unit) xs ys st :
  forEach f (xs ++ ys) st = bind (forEach f xs) (fun _ => forEach f ys) st.
Proof.
  revert st. induction xs as [|x xs IH]; intros st.
  - simpl. unfold bind, ret. by destruct (forEach f ys st) as [[r s] t].
  - change (forEach f ((x :: xs) ++ ys)) with (bind (f x) (fun _ => forEach f (xs ++ ys))).
    change (forEach f (x :: xs)) with (bind (f x) (fun _ => forEach f xs)).
    rewrite bind_assoc. apply bind_ext. intros _ s. apply IH.
Qed.

Lemma split_newline_append a b :
  split_newline (a +:+ newline +:+ b) = split_newline a ++ split_newline b.
Proof.
  induction a as [|c a IH].
  - change ("" +:+ newline +:+ b) with (String "010"%char b). reflexivity.
  - rewrite append_cons. simpl. destruct (decide (c = "010"%char)).
    + by rewrite IH.
    + rewrite IH. by destruct (split_newline_cons a) as (p & ps & ->).
Qed.

Lemma strip_newlines_pieces s : concat_strings (split_newline s) = strip_newlines s.
Proof.
  induction s as [|c s IH]; [reflexivity|]. simpl.
  destruct (decide (c = "010"%char)); [exact IH|].
  destruct (split_newline_cons s) as (p & ps & E). rewrite E in *. simpl in *.
  by rewrite <- IH.
Qed.

Lemma append_assoc s t u : (s +:+ t) +:+ u = s +:+ t +:+ u.
Proof. induction s as [|c s IH]; [reflexivity|]. by rewrite !append_cons, IH. Qed.

Section DecoderMore.

Variable JSON_parse : string -> option json.
Variable Number_toString : string -> string.

#[local] Arguments get_Action : simpl never.
#[local] Arguments emit : simpl never.

Lemma piece_step_total piece st :
  exists d t, piece_step JSON_parse Number_toString piece st = (Normal tt, set_data d st, t).
Proof.
  unfold piece_step. destruct (decide (piece = "")); [|apply decode_total].
  exists (data st), []. by rewrite set_data_same.
Qed.

(** [tryParseStdoutData] handles the pieces of the split one after the
    other, whatever the chunk. *)
Lemma tryParseStdoutData_pieces chunk st :
  tryParseStdoutData JSON_parse Number_toString chunk st
  = forEach (piece_step JSON_parse Number_toString) (split_newline chunk) st.
Proof.
  unfold tryParseStdoutData.
  assert (Hstep :
    tryParseStdoutData_fuel JSON_parse Number_toString 2 chunk st
    = (if decide (chunk = "") then ret tt
       else if decide (1 < length (split_newline chunk))
            then forEach (tryParseStdoutData_fuel JSON_parse Number_toString 1)
                   (split_newline chunk)
            else decode JSON_parse Number_toString chunk) st) by reflexivity.
  rewrite Hstep.
  destruct (decide (chunk = "")) as [->|Hne]; [reflexivity|].
  destruct (decide (1 < length (split_newline chunk))) as [Hl|Hl].
  - apply forEach_ext. eapply Forall_impl; [apply split_newline_pieces|].
    intros piece Hp s. simpl in Hp.
    rewrite (tryParseStdoutData_fuel_piece _ _ 0 _ _ Hp). unfold piece_step.
    by destruct (decide (piece = "")).
  - assert (Hn : has_newline chunk = false).
    { destruct (has_newline chunk) eqn:E; [|done].
      apply split_newline_length in E. lia. }
    rewrite (split_newline_whole _ Hn). simpl.
    unfold piece_step at 1. destruct (decide (chunk = "")); [done|].
    symmetry. apply bind_ret_r. destruct (decode_total JSON_parse Number_toString chunk st)
      as (d & t & E). by eexists _, _.
Qed.

(** One decode cycle, in full: the text handed to [JSON.parse], the buffer
    left, and the listener calls. *)
Lemma decode_outcome chunk st :
  exists t,
    decode JSON_parse Number_toString chunk st
    = (Normal tt,
       match JSON_parse (data st +:+ chunk) with
       | Some _ => set_data "" st
       | None => set_data (data st +:+ chunk) st
       end, t)
    /\ parses t = [data st +:+ chunk]
    /\ deliveries t
       = match JSON_parse (data st +:+ chunk) with
         | Some j => published Number_toString j (set_data "" st)
         | None => []
         end.
Proof.
  destruct (JSON_parse (data st +:+ chunk)) as [j|] eqn:Hp.
  2:{ rewrite (decode_syntax_error _ _ _ _ Hp). by eexists. }
  cbv [decode bind modify try_catch get parse tell ret throw]. simpl.
  rewrite Hp.
  change (set_data "" (set_data (data st +:+ chunk) st)) with (set_data "" st).
  unfold published.
  destruct (get_Action_cases j) as [[a Ha]|[e He]].
  - rewrite !Ha. unfold result_of at 1. simpl.
    destruct (emit_cases Number_toString a [VJson j] (set_data "" st))
      as (r & t & -> & Hr & Hd & Hq).
    unfold trace_of. simpl.
    destruct r as [| |]; [| |done]; eexists; (split; [reflexivity|]); simpl;
      rewrite ?parses_app, ?deliveries_app, ?Hq, ?Hd, ?app_nil_r; done.
  - rewrite !He. unfold result_of. simpl. by eexists.
Qed.

(** X1.  [tryParseStdoutData] returns normally on every chunk and from every
    state: its recursion stops after one level of splitting, so any fuel from
    2 on gives the same run, no exception leaves it, and nothing of the
    emitter but the buffer is changed. *)
Theorem tryParseStdoutData_returns (fuel : nat) (chunk : string) (st : state) :
  exists d t,
    tryParseStdoutData JSON_parse Number_toString chunk st = (Normal tt, set_data d st, t)
    /\ tryParseStdoutData_fuel JSON_parse Number_toString (S (S fuel)) chunk st
       = (Normal tt, set_data d st, t).
Proof.
  destruct (tryParseStdoutData_total JSON_parse Number_toString chunk st) as (d & t & E).
  exists d, t. split; [exact E|]. by rewrite tryParseStdoutData_fuel_enough.
Qed.

Lemma tryParseStdoutData_newline a b st :
  tryParseStdoutData JSON_parse Number_toString (a +:+ newline +:+ b) st
  = bind (tryParseStdoutData JSON_parse Number_toString a)
      (fun _ => tryParseStdoutData JSON_parse Number_toString b) st.
Proof.
  rewrite tryParseStdoutData_pieces, split_newline_append, forEach_app.
  unfold bind. rewrite <- tryParseStdoutData_pieces.
  destruct (tryParseStdoutData JSON_parse Number_toString a st) as [[[[]| |] s1] t1];
    try reflexivity.
  by rewrite <- tryParseStdoutData_pieces.
Qed.

(** X2.  A newline in a chunk is a chunk boundary: feeding [a], a newline and
    [b] in one chunk is feeding [a] and then [b], with the same effects in the
    same order, whatever [a] and [b] hold; in particular the text before the
    newline is decoded against the buffer, and the text after it against what
    that left. *)
Theorem newline_is_a_chunk_boundary (a b : string) (st : state) :
  let whole := tryParseStdoutData JSON_parse Number_toString (a +:+ newline +:+ b) st in
  let first := tryParseStdoutData JSON_parse Number_toString a st in
  let second := tryParseStdoutData JSON_parse Number_toString b (state_of first) in
  result_of whole = Normal tt
  /\ state_of whole = state_of second
  /\ trace_of whole = trace_of first ++ trace_of second.
Proof.
  intros whole first second. unfold whole, second, first.
  rewrite tryParseStdoutData_newline. unfold bind.
  destruct (tryParseStdoutData_total JSON_parse Number_toString a st) as (d & t & ->).
  change (state_of (Normal tt, set_data d st, t)) with (set_data d st).
  destruct (tryParseStdoutData_total JSON_parse Number_toString b (set_data d st))
    as (d' & t' & ->).
  repeat split.
Qed.

(** X3.  A chunk boundary inside a text is not seen by the subscribers: when
    the buffer with [c1] is no document yet, feeding [c1] and then [c2]
    leaves the same emitter and makes the same listener calls as feeding
    [c1 +:+ c2] at once, and the first of the two chunks calls no listener. *)
Theorem chunk_boundary_is_transparent (c1 c2 : string) (st : state) :
  has_newline c1 = false -> has_newline c2 = false ->
  JSON_parse (data st +:+ c1) = None ->
  let first := tryParseStdoutData JSON_parse Number_toString c1 st in
  let second := tryParseStdoutData JSON_parse Number_toString c2 (state_of first) in
  let whole := tryParseStdoutData JSON_parse Number_toString (c1 +:+ c2) st in
  deliveries (trace_of first) = []
  /\ state_of second = state_of whole
  /\ deliveries (trace_of second) = deliveries (trace_of whole).
Proof.
  intros H1 H2 P first second whole.
  assert (Hfirst : state_of first = set_data (data st +:+ c1) st
                   /\ deliveries (trace_of first) = []).
  { unfold first, tryParseStdoutData.
    rewrite (tryParseStdoutData_fuel_piece _ _ _ _ _ H1).
    destruct (decide (c1 = "")) as [->|].
    - unfold state_of. simpl. by rewrite append_empty_r, set_data_same.
    - by rewrite (decode_syntax_error _ _ _ _ P). }
  destruct Hfirst as [Hs Hd]. split; [exact Hd|].
  unfold second. rewrite Hs. clear first second Hs Hd.
  destruct (decide (c2 = "")) as [->|N2].
  { unfold whole. rewrite append_empty_r. unfold tryParseStdoutData.
    rewrite (tryParseStdoutData_fuel_piece _ _ _ _ _ H1).
    change (tryParseStdoutData_fuel JSON_parse Number_toString 2 "" ?s)
      with (@ret unit tt s).
    destruct (decide (c1 = "")) as [->|].
    - unfold state_of, trace_of. simpl. by rewrite append_empty_r, set_data_same.
    - by rewrite (decode_syntax_error _ _ _ _ P). }
  assert (N : c1 +:+ c2 <> "").
  { destruct c1; [done|]. by rewrite append_cons. }
  assert (H : has_newline (c1 +:+ c2) = false).
  { by rewrite has_newline_append, H1, H2. }
  unfold whole.
  rewrite (tryParseStdoutData_piece _ _ _ _ H2 N2), (tryParseStdoutData_piece _ _ _ _ H N).
  destruct (decode_outcome c2 (set_data (data st +:+ c1) st)) as (t & -> & _ & D).
  destruct (decode_outcome (c1 +:+ c2) st) as (t' & -> & _ & D').
  simpl in *. rewrite append_assoc in *.
  unfold state_of, trace_of. simpl. rewrite D, D'.
  by destruct (JSON_parse (data st +:+ c1 +:+ c2)).
Qed.

(** X4.  A text that parses is consumed, whatever happens next: after a chunk
    without newline the buffer is empty when the buffer with the chunk was a
    document (even [null], whose [Action] cannot be read, and even when
    publishing throws), and holds the appended chunk otherwise. *)
Theorem buffer_after_chunk (chunk : string) (st : state) :
  has_newline chunk = false -> chunk <> "" ->
  let r := tryParseStdoutData JSON_parse Number_toString chunk st in
  result_of r = Normal tt
  /\ parses (trace_of r) = [data st +:+ chunk]
  /\ data (state_of r)
     = match JSON_parse (data st +:+ chunk) with
       | Some _ => ""
       | None => data st +:+ chunk
       end
  /\ deliveries (trace_of r)
     = match JSON_parse (data st +:+ chunk) with
       | Some j => published Number_toString j (set_data "" st)
       | None => []
       end.
Proof.
  intros H N r. unfold r. rewrite (tryParseStdoutData_piece _ _ _ _ H N).
  destruct (decode_outcome chunk st) as (t & -> & Q & D).
  unfold result_of, trace_of, state_of. simpl.
  split; [done|]. split; [done|]. split; [|done].
  by destruct (JSON_parse (data st +:+ chunk)).
Qed.

Lemma dead_buffer_append x st :
  dead_buffer JSON_parse st -> dead_buffer JSON_parse (set_data (data st +:+ x) st).
Proof. intros H s. simpl. rewrite append_assoc. apply H. Qed.

Lemma forEach_dead (f : string -> M unit) (g : string -> string) :
  (forall x st, dead_buffer JSON_parse st ->
     exists t, f x st = (Normal tt, set_data (data st +:+ g x) st, t)
               /\ deliveries t = []) ->
  forall xs st, dead_buffer JSON_parse st ->
    exists t, forEach f xs st
              = (Normal tt, set_data (data st +:+ concat_strings (map g xs)) st, t)
              /\ deliveries t = [].
Proof.
  intros Hf xs. induction xs as [|x xs IH]; intros st Hdead.
  - exists []. simpl. by rewrite append_empty_r, set_data_same.
  - simpl. unfold bind. destruct (Hf x st Hdead) as (t1 & -> & D1).
    destruct (IH _ (dead_buffer_append (g x) st Hdead)) as (t2 & -> & D2).
    eexists. split; [|by rewrite deliveries_app, D1, D2].
    simpl. by rewrite append_assoc.
Qed.

Lemma piece_step_dead piece st :
  dead_buffer JSON_parse st ->
  exists t, piece_step JSON_parse Number_toString piece st
            = (Normal tt, set_data (data st +:+ id piece) st, t)
            /\ deliveries t = [].
Proof.
  intros Hdead. unfold piece_step, id. destruct (decide (piece = "")) as [->|].
  - exists []. by rewrite append_empty_r, set_data_same.
  - rewrite (decode_syntax_error _ _ _ _ (Hdead piece)). by eexists.
Qed.

Lemma tryParseStdoutData_dead chunk st :
  dead_buffer JSON_parse st ->
  exists t, tryParseStdoutData JSON_parse Number_toString chunk st
            = (Normal tt, set_data (data st +:+ strip_newlines chunk) st, t)
            /\ deliveries t = [].
Proof.
  intros Hdead. rewrite tryParseStdoutData_pieces.
  destruct (forEach_dead _ id piece_step_dead (split_newline chunk) st Hdead)
    as (t & -> & D).
  exists t. by rewrite map_id, strip_newlines_pieces.
Qed.

(** X5.  A buffer that no continuation can complete poisons the stream: from
    then on no chunk, however many follow and whatever they hold, calls a
    listener or raises an error, and the buffer only grows, by every
    character received except the newlines. *)
Theorem poisoned_stream (chunks : list string) (st : state) :
  dead_buffer JSON_parse st ->
  let r := feed JSON_parse Number_toString chunks st in
  result_of r = Normal tt
  /\ deliveries (trace_of r) = []
  /\ state_of r
     = set_data (data st +:+ concat_strings (map strip_newlines chunks)) st.
Proof.
  intros Hdead r.
  destruct (forEach_dead _ strip_newlines tryParseStdoutData_dead chunks st Hdead)
    as (t & E & D).
  unfold r, feed. by rewrite E.
Qed.



End DecoderMore.

(** ** More on the dispatch *)

Section DispatchMore.

Variable Number_toString : string -> string.

Lemma emit_bad_key type e args st :
  unhandled_error type st = false ->
  ToPropertyKey Number_toString type st = (Throw e, st, []) ->
  emit Number_toString type args st = (Throw e, st, calls (listeners_of "*" st) args).
Proof.
  intros Hu He. unfold emit. unfold bind at 1.
  rewrite super_emit_string by reflexivity.
  unfold bind at 1. unfold super_emit. unfold bind at 1, get.
  fold (unhandled_error type st). rewrite Hu.
  unfold bind. rewrite He. by rewrite app_nil_r.
Qed.

(** X6.  Whatever the type of the event, a string or any other value, with
    or without listeners, [emit] calls the wildcard listeners first, in
    registration order; it then returns or throws, it makes nothing but
    listener calls, and it leaves the emitter unchanged.  It throws exactly
    on an ['error'] event nobody listens to and on a type that has no
    property key. *)
Theorem emit_wildcard_first (type : value) (args : list value) (st : state) :
  exists r t,
    emit Number_toString type args st = (r, st, calls (listeners_of "*" st) args ++ t)
    /\ deliveries t = t
    /\ r <> Diverged
    /\ ((exists e, r = Throw e)
        <-> unhandled_error type st = true
            \/ exists e, ToPropertyKey Number_toString type st = (Throw e, st, [])).
Proof.
  destruct (unhandled_error type st) eqn:Hu.
  - rewrite (emit_unhandled _ _ _ _ Hu). exists (Throw (unhandled args)), [].
    rewrite app_nil_r. split; [done|]. split; [done|]. split; [done|].
    split; [by left | by eexists].
  - destruct (ToPropertyKey_cases Number_toString type st) as [[key Hk]|[e He]].
    + rewrite (emit_key _ _ _ _ _ Hu Hk). eexists _, _. split; [reflexivity|].
      split.
      { rewrite deliveries_app, deliveries_calls.
        by destruct (is_empty (listeners_of key st)); rewrite ?deliveries_calls. }
      split; [done|]. split.
      * by intros [e [=]].
      * intros [[=]|[e He]]. rewrite Hk in He. discriminate.
    + rewrite (emit_bad_key _ _ _ _ Hu He). exists (Throw e), [].
      rewrite app_nil_r. split; [done|]. split; [done|]. split; [done|].
      split; [right; by eexists | by eexists].
Qed.

(** X7.  The two reserved patterns as event types.  An event of type ['*']
    reaches every wildcard listener twice, once as wildcard and once as exact
    match, and the fallback listeners when there is no wildcard listener.  An
    event of type [''] reaches the wildcard listeners and then the fallback
    listeners once; [emit] returns whether the second group was called. *)
Theorem reserved_patterns_as_types (args : list value) (st : state) :
  emit Number_toString (VJson (JStr "*")) args st
  = (Normal (negb (is_empty (listeners_of "*" st) && is_empty (listeners_of "" st))),
     st,
     calls (listeners_of "*" st) args ++ calls (listeners_of "*" st) args
     ++ (if is_empty (listeners_of "*" st) then calls (listeners_of "" st) args else []))
  /\ emit Number_toString (VJson (JStr "")) args st
     = (Normal (negb (is_empty (listeners_of "" st))), st,
        calls (listeners_of "*" st) args ++ calls (listeners_of "" st) args).
Proof.
  split.
  - by rewrite (emit_key Number_toString (VJson (JStr "*")) "*").
  - rewrite (emit_key Number_toString (VJson (JStr "")) "") by done.
    destruct (listeners_of "" st) as [|l ls]; simpl; by rewrite ?app_nil_r.
Qed.

(** X8.  The ['error'] handler of the subprocess logs the failure and
    publishes it as an ['error'] event: the wildcard listeners receive it,
    then the ['error'] listeners.  When there is no ['error'] listener the
    error is thrown out of the handler after the wildcard listeners ran.  The
    fallback listeners never receive it, and the emitter is unchanged. *)
Theorem spawn_error_is_published (error : string) (st : state) :
  let r := on_child_error Number_toString error st in
  state_of r = st
  /\ (if is_empty (listeners_of "error" st)
      then result_of r = Throw (ThrownValue (VError error))
           /\ trace_of r
              = ELogFailedToStart (VError error)
                :: calls (listeners_of "*" st) [VError error]
      else result_of r = Normal tt
           /\ trace_of r
              = ELogFailedToStart (VError error)
                :: calls (listeners_of "*" st) [VError error]
                ++ calls (listeners_of "error" st) [VError error]).
Proof.
  intros r. unfold r, on_child_error. cbv [bind tell ret].
  destruct (listeners_of "error" st) as [|l ls] eqn:E; simpl.
  - rewrite emit_unhandled by (unfold unhandled_error; simpl; by rewrite E).
    done.
  - rewrite (emit_key Number_toString (VJson (JStr "error")) "error")
      by (try done; unfold unhandled_error; simpl; by rewrite E).
    rewrite E. unfold state_of, result_of, trace_of. simpl.
    by rewrite !app_nil_r.
Qed.

End DispatchMore.

(** ** More on the watcher *)

Lemma watcher_callback_step event f st :
  exists s t,
    watcher_callback event f st = (Normal tt, s, t)
    /\ lastSeen s = (if qualifies event f then Some f else lastSeen st).
Proof.
  unfold qualifies.
  destruct (decide (event = "rename")) as [->|Hn].
  2:{ rewrite watcher_callback_ignored by (left; done).
      rewrite (bool_decide_eq_false_2 _ Hn). by eexists _, _. }
  rewrite (bool_decide_eq_true_2 _ eq_refl). simpl.
  destruct (decide (f = "docker.sock")) as [Hs|Hs];
    [|destruct (decide (f = "dockerd.pid")) as [Hp|Hp]].
  3:{ rewrite watcher_callback_ignored by (right; done).
      rewrite (bool_decide_eq_false_2 _ Hs), (bool_decide_eq_false_2 _ Hp).
      by eexists _, _. }
  all: rewrite watcher_callback_run by tauto.
  all: assert (bool_decide (f = "docker.sock") || bool_decide (f = "dockerd.pid") = true)
         as -> by (subst f; reflexivity).
  all: repeat (destruct (_ && _)); by eexists _, _.
Qed.

(** X9.  After any run of directory notifications, [lastSeen] is the file
    name of the last one that qualified (a rename of the socket file or of
    the pid file), or what it was when none did; the callback never throws. *)
Theorem lastSeen_follows_notifications (evs : list (string * string)) (st : state) :
  let r := notify evs st in
  result_of r = Normal tt
  /\ lastSeen (state_of r) = last_qualifying evs (lastSeen st).
Proof.
  revert st. induction evs as [|[event f] evs IH]; intros st; [done|].
  simpl. unfold notify. simpl. unfold bind.
  destruct (watcher_callback_step event f st) as (s & t & -> & L).
  specialize (IH s). simpl in IH. unfold notify in IH.
  destruct (forEach _ evs s) as [[r2 s2] t2].
  unfold result_of, state_of in *. simpl in *. by rewrite <- L.
Qed.

(** X10.  As long as no notification names the pid file, nothing happens to
    the pipeline: the socket file may be renamed away and back any number of
    times without a stop or a restart.  Only [lastSeen] changes. *)
Theorem no_pid_notification_no_action (evs : list (string * string)) (st : state) :
  lastSeen st <> Some "dockerd.pid" ->
  Forall (fun ef => ef.2 <> "dockerd.pid") evs ->
  let r := notify evs st in
  result_of r = Normal tt
  /\ trace_of r = []
  /\ state_of r = set_lastSeen (last_qualifying evs (lastSeen st)) st.
Proof.
  intros Hl Hev. revert st Hl.
  induction Hev as [|[event f] evs Hf _ IH]; intros st Hl.
  { unfold notify, result_of, trace_of, state_of. simpl. by destruct st. }
  simpl in Hf.
  assert (Hstep : watcher_callback event f st
                  = (Normal tt,
                     set_lastSeen (if qualifies event f then Some f else lastSeen st) st,
                     [])).
  { unfold qualifies.
    destruct (decide (event = "rename")) as [->|Hn].
    2:{ rewrite watcher_callback_ignored by (left; done).
        rewrite (bool_decide_eq_false_2 _ Hn). simpl. by destruct st. }
    rewrite (bool_decide_eq_true_2 _ eq_refl), (bool_decide_eq_false_2 _ Hf). simpl.
    destruct (decide (f = "docker.sock")) as [Hs|Hs].
    2:{ rewrite watcher_callback_ignored by (right; done).
        rewrite (bool_decide_eq_false_2 _ Hs). by destruct st. }
    rewrite watcher_callback_run by tauto.
    rewrite (bool_decide_eq_false_2 _ Hf), (bool_decide_eq_false_2 _ Hl).
    rewrite (bool_decide_eq_true_2 _ Hs). by rewrite andb_false_r. }
  simpl. unfold notify. simpl. unfold bind. rewrite Hstep.
  set (s := set_lastSeen (if qualifies event f then Some f else lastSeen st) st).
  assert (Hs : lastSeen s <> Some "dockerd.pid").
  { unfold s. simpl. destruct (qualifies event f); [congruence | done]. }
  specialize (IH s Hs). simpl in IH. unfold notify in IH.
  destruct (forEach _ evs s) as [[r2 s2] t2].
  unfold result_of, trace_of, state_of in *. simpl in *.
  destruct IH as (-> & -> & ->). done.
Qed.

(** ** More on the supervisor *)

Lemma lifecycle_app t1 t2 : lifecycle (t1 ++ t2) = lifecycle t1 ++ lifecycle t2.
Proof.
  unfold lifecycle. induction t1 as [|e t1 IH]; [reflexivity|].
  simpl. destruct (is_lifecycle e); simpl; by rewrite IH.
Qed.

Lemma lifecycle_calls ls args : lifecycle (calls ls args) = [].
Proof. induction ls as [|l ls IH]; [reflexivity|]. exact IH. Qed.

Lemma spawned_lifecycle t : spawned (lifecycle t) = spawned t.
Proof.
  unfold lifecycle. induction t as [|e t IH]; [reflexivity|].
  destruct e; simpl; by rewrite ?IH.
Qed.

Lemma watches_lifecycle t : watches (lifecycle t) = watches t.
Proof.
  unfold lifecycle. induction t as [|e t IH]; [reflexivity|].
  destruct e; simpl; by rewrite ?IH.
Qed.

Lemma spawned_app t1 t2 : spawned (t1 ++ t2) = spawned t1 ++ spawned t2.
Proof.
  induction t1 as [|e t1 IH]; [reflexivity|]. destruct e; simpl; by rewrite IH.
Qed.

Lemma watches_app t1 t2 : watches (t1 ++ t2) = watches t1 + watches t2.
Proof.
  induction t1 as [|e t1 IH]; [reflexivity|]. destruct e; simpl; by rewrite IH.
Qed.

Lemma forEach_lifecycle {A} (f : A -> M unit) xs :
  (forall x st, lifecycle (trace_of (f x st)) = []) ->
  forall st, lifecycle (trace_of (forEach f xs st)) = [].
Proof.
  intros Hf. induction xs as [|x xs IH]; intros st; [reflexivity|].
  simpl. unfold bind. specialize (Hf x st).
  destruct (f x st) as [[[[]| |] s1] t1]; unfold trace_of in *; simpl in *;
    try exact Hf.
  specialize (IH s1). destruct (forEach f xs s1) as [[r2 s2] t2]. simpl in *.
  by rewrite lifecycle_app, Hf, IH.
Qed.

(** A run seen as a loop with an invariant on the state and the trace. *)
Lemma forEach_invariant {A} (R : state -> list effect -> Prop) (f : A -> M unit) xs :
  (forall x st t, R st t -> R (state_of (f x st)) (t ++ trace_of (f x st))) ->
  forall st t, R st t ->
    R (state_of (forEach f xs st)) (t ++ trace_of (forEach f xs st)).
Proof.
  intros Hf. induction xs as [|x xs IH]; intros st t H.
  - simpl. unfold state_of, trace_of. simpl. by rewrite app_nil_r.
  - simpl. unfold bind. specialize (Hf x st t H).
    destruct (f x st) as [[[[]| |] s1] t1]; unfold state_of, trace_of in *;
      simpl in *; try exact Hf.
    specialize (IH s1 _ Hf).
    destruct (forEach f xs s1) as [[r2 s2] t2]. simpl in *.
    by rewrite app_assoc.
Qed.

Section SupervisorMore.

Variable JSON_parse : string -> option json.
Variable Number_toString : string -> string.

Lemma emit_lifecycle type args st :
  lifecycle (trace_of (emit Number_toString type args st)) = [].
Proof.
  destruct (emit_cases Number_toString type args st) as (r & t & -> & _ & Hd & _).
  unfold trace_of. simpl. rewrite <- Hd. unfold deliveries, lifecycle.
  clear Hd. induction t as [|e t IH]; [reflexivity|].
  destruct e; simpl; exact IH.
Qed.

Lemma decode_lifecycle chunk st :
  lifecycle (trace_of (decode JSON_parse Number_toString chunk st)) = [].
Proof.
  destruct (JSON_parse (data st +:+ chunk)) as [j|] eqn:Hp;
    [|by rewrite (decode_syntax_error _ _ _ _ Hp)].
  cbv [decode bind modify try_catch get parse tell ret throw]. simpl.
  rewrite Hp.
  change (set_data "" (set_data (data st +:+ chunk) st)) with (set_data "" st).
  destruct (get_Action_cases j) as [[a Ha]|[e He]].
  - rewrite Ha.
    pose proof (emit_lifecycle a [VJson j] (set_data "" st)) as Hl.
    destruct (emit Number_toString a [VJson j] (set_data "" st)) as [[r s] t].
    unfold trace_of in *. simpl in *.
    destruct r; simpl; rewrite ?lifecycle_app, ?app_nil_r; simpl;
      change (lifecycle (ELogEmitting j :: ?x)) with (lifecycle x);
      rewrite ?lifecycle_app, ?Hl; reflexivity.
  - rewrite He. reflexivity.
Qed.

Lemma tryParseStdoutData_lifecycle chunk st :
  lifecycle (trace_of (tryParseStdoutData JSON_parse Number_toString chunk st)) = [].
Proof.
  rewrite tryParseStdoutData_pieces. apply forEach_lifecycle.
  intros piece s. unfold piece_step.
  destruct (decide (piece = "")); [reflexivity | apply decode_lifecycle].
Qed.

Lemma same_process_refl s : same_process s s.
Proof. by repeat split. Qed.

(** What a callback does to the watcher and the subprocesses: nothing, or
    what [cleanup] does, or what [listen] does, or it is the exit of a
    child. *)
Lemma handle_process i st :
  let r := handle JSON_parse Number_toString i st in
  (same_process (state_of r) st /\ lifecycle (trace_of r) = [])
  \/ (same_process (state_of r) (state_of (cleanup st))
      /\ lifecycle (trace_of r) = lifecycle (trace_of (cleanup st)))
  \/ ((i = CallListen \/ watcher st = true)
      /\ same_process (state_of r) (state_of (listen st))
      /\ lifecycle (trace_of r) = lifecycle (trace_of (listen st)))
  \/ (exists p, state_of r = mark_exited p st /\ trace_of r = []).
Proof.
  destruct i as [|pattern l|event f|p chunk|p error|p]; simpl.
  - right. right. left. split; [by left|]. split; [apply same_process_refl | done].
  - left. by repeat split.
  - cbv [bind get]. destruct (watcher st) eqn:W; [|left; by repeat split].
    destruct (decide (event = "rename")) as [->|Hn];
      [|rewrite watcher_callback_ignored by (left; done); left; by repeat split].
    destruct (decide (f = "docker.sock")) as [Hs|Hs];
      [|destruct (decide (f = "dockerd.pid")) as [Hp|Hp]].
    3:{ rewrite watcher_callback_ignored by (right; done). left. by repeat split. }
    all: rewrite watcher_callback_run by tauto.
    all: destruct (bool_decide (lastSeen st = Some "docker.sock")
                   && bool_decide (f = "dockerd.pid"));
      [right; left; by repeat split|].
    all: destruct (bool_decide (lastSeen st = Some "dockerd.pid")
                   && bool_decide (f = "docker.sock"));
      [right; right; left; split; [by right|]; by repeat split
      |left; by repeat split].
  - cbv [bind get]. destruct (decide (p < length (children st)));
      [|left; by repeat split].
    pose proof (tryParseStdoutData_lifecycle chunk st) as Hl.
    destruct (tryParseStdoutData_total JSON_parse Number_toString chunk st)
      as (d & t & E). rewrite E in *. left. by repeat split.
  - cbv [bind get]. destruct (decide (p < length (children st)));
      [|left; by repeat split].
    unfold on_child_error. cbv [bind tell ret].
    pose proof (emit_state Number_toString (VJson (JStr "error")) [VError error] st) as E.
    pose proof (emit_lifecycle (VJson (JStr "error")) [VError error] st) as Hl.
    destruct (emit Number_toString (VJson (JStr "error")) [VError error] st)
      as [[[| |] s1] t1]; unfold state_of, trace_of in *; simpl in *; subst;
      left; rewrite ?lifecycle_app, ?app_nil_r;
      (split; [by repeat split|]);
      change (lifecycle (ELogFailedToStart (VError error) :: ?x)) with (lifecycle x);
      rewrite ?lifecycle_app, ?Hl; reflexivity.
  - right. right. right. by exists p.
Qed.

Lemma supervised_ext fs s s' t t' :
  same_process s' s -> lifecycle t' = lifecycle t ->
  supervised fs s t -> supervised fs s' t'.
Proof.
  intros (C & W & F & Ch & X) Hl (H1 & H2 & H3 & H4 & H5 & H6 & H7).
  unfold supervised. rewrite C, W, F, Ch, X.
  rewrite <- (watches_lifecycle t'), <- (spawned_lifecycle t'), Hl.
  by rewrite watches_lifecycle, spawned_lifecycle.
Qed.

Lemma supervised_cleanup fs st t :
  supervised fs st t ->
  supervised fs (state_of (cleanup st)) (t ++ trace_of (cleanup st)).
Proof.
  intros H. rewrite cleanup_run.
  destruct (tracked_live st) as [p|]; unfold state_of, trace_of; simpl;
    [|by rewrite app_nil_r].
  destruct H as (H1 & H2 & H3 & H4 & H5 & H6 & H7).
  unfold signalled. destruct (children st !! p) as [c|] eqn:E;
    [|unfold supervised; by rewrite watches_app, spawned_app, Nat.add_0_r, app_nil_r].
  unfold supervised. simpl.
  rewrite watches_app, spawned_app, length_insert. simpl.
  rewrite Nat.add_0_r, app_nil_r.
  repeat (split; [done|]). apply Forall_insert; [done|]. simpl.
  by apply (Forall_lookup_1 _ _ _ _ H7 E).
Qed.

Lemma supervised_listen fs st t :
  supervised fs st t ->
  supervised fs (state_of (listen st)) (t ++ trace_of (listen st)).
Proof.
  intros H. apply supervised_cleanup in H. rewrite listen_run.
  unfold state_of at 1, trace_of at 1. simpl.
  remember (state_of (cleanup st)) as s1. remember (trace_of (cleanup st)) as t1.
  rewrite app_assoc.
  destruct H as (H1 & H2 & H3 & H4 & H5 & H6 & H7).
  unfold supervised, listening, listen_trace. simpl.
  rewrite length_app, Nat.add_1_r, watches_app, spawned_app, H1, H2, H4, H6.
  split; [done|]. split; [done|]. split; [done|]. split.
  { by destruct (watcher s1). }
  split; [done|]. split.
  - rewrite seq_S, map_app. simpl. f_equal. by destruct (watcher s1).
  - apply Forall_app. split; [done|]. constructor; [|done]. simpl.
    split; reflexivity.
Qed.

Lemma supervised_exited fs p st t :
  supervised fs st t -> supervised fs (mark_exited p st) t.
Proof.
  intros H. unfold mark_exited. destruct (children st !! p) as [c|] eqn:E; [|done].
  destruct H as (H1 & H2 & H3 & H4 & H5 & H6 & H7).
  unfold supervised. simpl. rewrite length_insert.
  repeat (split; [done|]). apply Forall_insert; [done|]. simpl.
  by apply (Forall_lookup_1 _ _ _ _ H7 E).
Qed.

Lemma handle_supervised fs i st t :
  supervised fs st t ->
  supervised fs (state_of (handle JSON_parse Number_toString i st))
    (t ++ trace_of (handle JSON_parse Number_toString i st)).
Proof.
  intros H.
  destruct (handle_process i st) as [(S & L)|[(S & L)|[(_ & S & L)|(p & -> & ->)]]].
  - apply (supervised_ext fs st _ t); [done| |done].
    by rewrite lifecycle_app, L, app_nil_r.
  - apply (supervised_ext fs _ _ (t ++ trace_of (cleanup st)) _ S);
      [by rewrite !lifecycle_app, L | by apply supervised_cleanup].
  - apply (supervised_ext fs _ _ (t ++ trace_of (listen st)) _ S);
      [by rewrite !lifecycle_app, L | by apply supervised_listen].
  - rewrite app_nil_r. by apply supervised_exited.
Qed.

(** The bookkeeping holds after every run from construction. *)
Lemma run_supervised inputs fs :
  supervised fs
    (state_of (run JSON_parse Number_toString inputs (constructor fs)))
    (trace_of (run JSON_parse Number_toString inputs (constructor fs))).
Proof.
  apply (forEach_invariant (supervised fs) (handle JSON_parse Number_toString) inputs
           (fun i s t => handle_supervised fs i s t) (constructor fs) []).
  unfold supervised. simpl. by repeat split.
Qed.

(** X11.  The directory watch is installed at most once in the life of an
    emitter, whatever is called and whatever arrives: exactly once as soon as
    a subprocess has been spawned, and not before. *)
Theorem watcher_installed_once (inputs : list input) (fs : list string) :
  let r := run JSON_parse Number_toString inputs (constructor fs) in
  watches (trace_of r) <= 1
  /\ watches (trace_of r) = (if watcher (state_of r) then 1 else 0)
  /\ (watcher (state_of r) = false <-> spawned (trace_of r) = []).
Proof.
  cbv zeta. destruct (run_supervised inputs fs) as (_ & _ & _ & H4 & H5 & H6 & _).
  rewrite H4, H6, H5.
  destruct (length (children _)); simpl; (split; [lia|]); by split.
Qed.

(** X12.  Every subprocess of an emitter built with the filters [fs] is
    spawned with the same command, through a shell, and takes the next slot;
    the tracked subprocess is always the last one spawned, and there is none
    before the first spawn. *)
Theorem every_spawn_same_command (inputs : list input) (fs : list string) :
  let r := run JSON_parse Number_toString inputs (constructor fs) in
  let n := length (children (state_of r)) in
  spawned (trace_of r) = map (fun p => (p, docker_command fs, true)) (seq 0 n)
  /\ cmd (state_of r) = match n with 0 => None | S last => Some last end
  /\ Forall (fun c => command c = docker_command fs /\ shell c = true)
       (children (state_of r)).
Proof.
  intros r n. by destruct (run_supervised inputs fs) as (_ & _ & H3 & _ & _ & H6 & H7).
Qed.

Lemma kill_running p c st :
  children st !! p = Some c -> exited c = false ->
  kill p st = (Normal true, signalled p st, [ESignal p]).
Proof.
  intros E X. unfold kill, signalled. cbv [bind get tell modify ret].
  rewrite E, X. reflexivity.
Qed.

Lemma kill_exited p c st :
  children st !! p = Some c -> exited c = true -> kill p st = (Normal false, st, []).
Proof.
  intros E X. unfold kill. cbv [bind get tell modify ret]. by rewrite E, X.
Qed.

Lemma signalled_again p st : signalled p (signalled p st) = signalled p st.
Proof.
  unfold signalled. destruct (children st !! p) as [c|] eqn:E; [|by rewrite E].
  simpl. rewrite list_lookup_insert_eq by (by eapply lookup_lt_Some). simpl.
  by rewrite list_insert_insert_eq.
Qed.

Lemma signalled_running p c st :
  children st !! p = Some c -> exited c = false ->
  exists c', children (signalled p st) !! p = Some c' /\ exited c' = false.
Proof.
  intros E X. unfold signalled. rewrite E. simpl.
  rewrite list_lookup_insert_eq by (by eapply lookup_lt_Some). by eexists.
Qed.

Lemma signalled_idle p st : single_owner st -> cmd st = Some p -> idle (signalled p st).
Proof.
  intros H C i c' Hi. unfold signalled in Hi.
  destruct (children st !! p) as [c|] eqn:E.
  - simpl in Hi. destruct (decide (i = p)) as [->|Hne].
    + rewrite list_lookup_insert_eq in Hi by (by eapply lookup_lt_Some).
      by injection Hi as <-.
    + rewrite list_lookup_insert_ne in Hi by done.
      destruct (live c') eqn:L; [|done].
      specialize (H i c' Hi L). congruence.
  - destruct (live c') eqn:L; [|done].
    specialize (H i c' Hi L). rewrite C in H. injection H as ->. congruence.
Qed.

(** The hooks, one after the other, on a tracked child that has not exited. *)
Lemma exit_hooks_running n p c st :
  cmd st = Some p -> children st !! p = Some c -> exited c = false ->
  forEach (fun _ : unit => kill_tracked) (replicate (S n) tt) st
  = (Normal tt, signalled p st, replicate (S n) (ESignal p)).
Proof.
  revert c st. induction n as [|n IH]; intros c st C E X.
  - simpl. unfold bind, kill_tracked. cbv [bind get ret]. rewrite C.
    by rewrite (kill_running _ _ _ E X).
  - rewrite replicate_S.
    change (forEach (fun _ : unit => kill_tracked) (tt :: replicate (S n) tt))
      with (bind kill_tracked (fun _ => forEach (fun _ : unit => kill_tracked)
                                          (replicate (S n) tt))).
    unfold bind at 1. unfold kill_tracked at 1. cbv [bind get ret]. rewrite C.
    rewrite (kill_running _ _ _ E X). simpl app.
    destruct (signalled_running _ _ _ E X) as (c' & E' & X').
    destruct (signalled_fields p st) as (C' & _).
    rewrite (IH c' (signalled p st)) by (try done; by rewrite C').
    by rewrite signalled_again.
Qed.

Lemma exit_hooks_exited n p c st :
  cmd st = Some p -> children st !! p = Some c -> exited c = true ->
  forEach (fun _ : unit => kill_tracked) (replicate n tt) st = (Normal tt, st, []).
Proof.
  intros C E X. induction n as [|n IH]; [reflexivity|].
  simpl. unfold bind at 1. unfold kill_tracked at 1. cbv [bind get ret]. rewrite C.
  rewrite (kill_exited _ _ _ E X). simpl. by rewrite IH.
Qed.

(** X13.  Every [listen()] adds an exit hook and none is ever removed: there
    are as many hooks as subprocesses were spawned.  When the process exits,
    each hook signals the subprocess tracked at that moment, so a tracked
    child that has not exited receives one signal per spawn there ever was
    and the earlier children none; no hook throws, and no subprocess is left
    live. *)
Theorem exit_hooks_signal_tracked_child (inputs : list input) (fs : list string) :
  let run_result := run JSON_parse Number_toString inputs (constructor fs) in
  let st := state_of run_result in
  let r := on_process_exit st in
  exitHooks st = length (spawned (trace_of run_result))
  /\ result_of r = Normal tt
  /\ live_pids (state_of r) = []
  /\ trace_of r
     = match cmd st with
       | Some p =>
           match children st !! p with
           | Some c => if exited c then [] else replicate (exitHooks st) (ESignal p)
           | None => []
           end
       | None => []
       end.
Proof.
  cbv zeta.
  assert (Hown := run_single_owner JSON_parse Number_toString inputs _
                    (constructor_single_owner fs)).
  destruct (run_supervised inputs fs) as (_ & H2 & H3 & _ & _ & H6 & _).
  set (st := state_of (run JSON_parse Number_toString inputs (constructor fs))) in *.
  split. { by rewrite H6, length_map, length_seq. }
  unfold on_process_exit. cbv [bind get]. rewrite H2.
  destruct (length (children st)) as [|n] eqn:Len.
  { apply nil_length_inv in Len. rewrite H3.
    unfold result_of, state_of, trace_of, live_pids. simpl. by rewrite Len. }
  rewrite H3.
  assert (Hlt : n < length (children st)) by lia.
  destruct (lookup_lt_is_Some_2 _ _ Hlt) as [c E]. rewrite E.
  destruct (exited c) eqn:X.
  - rewrite (exit_hooks_exited _ _ _ _ H3 E X).
    unfold result_of, state_of, trace_of. simpl.
    split; [done|]. split; [|done].
    rewrite (single_owner_live_pids _ Hown). unfold tracked_live, live.
    rewrite H3, E, X. by rewrite andb_false_r.
  - rewrite (exit_hooks_running _ _ _ _ H3 E X).
    unfold result_of, state_of, trace_of. simpl.
    split; [done|]. split; [|done].
    apply live_from_idle. by apply signalled_idle.
Qed.

End SupervisorMore.

(** ** Concrete runs of the further properties *)

Lemma JSON_parse_ref_dead_after_brace st :
  dead_buffer JsonRef.JSON_parse_ref (set_data "}" st).
Proof.
  intros s. simpl. unfold JsonRef.JSON_parse_ref.
  change ("}" +:+ s) with (String "}"%char s).
  change (2 * String.length (String "}"%char s) + 2)
    with (S (String.length s + S (String.length s + 0) + 2)).
  reflexivity.
Qed.

Lemma chunk_boundary_is_transparent_witness :
  has_newline (JsonRef.js "{'Type':'container','Act") = false
  /\ has_newline (JsonRef.js "ion':'die'}") = false
  /\ JsonRef.JSON_parse_ref
       (data sample_emitter +:+ JsonRef.js "{'Type':'container','Act") = None
  /\ (let first := tryParseStdoutData JsonRef.JSON_parse_ref id
                     (JsonRef.js "{'Type':'container','Act") sample_emitter in
      let second := tryParseStdoutData JsonRef.JSON_parse_ref id
                      (JsonRef.js "ion':'die'}") (state_of first) in
      let whole := tryParseStdoutData JsonRef.JSON_parse_ref id
                     (JsonRef.js "{'Type':'container','Act" +:+ JsonRef.js "ion':'die'}")
                     sample_emitter in
      deliveries (trace_of first) = []
      /\ state_of second = state_of whole
      /\ deliveries (trace_of second) = deliveries (trace_of whole)).
Proof.
  split; [vm_compute; reflexivity|].
  split; [vm_compute; reflexivity|].
  split; [vm_compute; reflexivity|].
  apply (chunk_boundary_is_transparent JsonRef.JSON_parse_ref id
           (JsonRef.js "{'Type':'container','Act") (JsonRef.js "ion':'die'}")
           sample_emitter); vm_compute; reflexivity.
Defined.

Lemma buffer_after_chunk_witness :
  has_newline "null" = false
  /\ "null" <> ""
  /\ (let r := tryParseStdoutData JsonRef.JSON_parse_ref id "null" sample_emitter in
      result_of r = Normal tt
      /\ parses (trace_of r) = [data sample_emitter +:+ "null"]
      /\ data (state_of r)
         = match JsonRef.JSON_parse_ref (data sample_emitter +:+ "null") with
           | Some _ => ""
           | None => data sample_emitter +:+ "null"
           end
      /\ deliveries (trace_of r)
         = match JsonRef.JSON_parse_ref (data sample_emitter +:+ "null") with
           | Some j => published id j (set_data "" sample_emitter)
           | None => []
           end).
Proof.
  split; [reflexivity|]. split; [discriminate|].
  apply (buffer_after_chunk JsonRef.JSON_parse_ref id "null" sample_emitter);
    [reflexivity | discriminate].
Defined.

Lemma poisoned_stream_witness :
  dead_buffer JsonRef.JSON_parse_ref (set_data "}" sample_emitter)
  /\ (let r := feed JsonRef.JSON_parse_ref id [start_line +:+ newline; die_line]
                 (set_data "}" sample_emitter) in
      result_of r = Normal tt
      /\ deliveries (trace_of r) = []
      /\ state_of r
         = set_data
             (data (set_data "}" sample_emitter)
              +:+ concat_strings (map strip_newlines [start_line +:+ newline; die_line]))
             (set_data "}" sample_emitter)).
Proof.
  split; [apply JSON_parse_ref_dead_after_brace|].
  apply (poisoned_stream JsonRef.JSON_parse_ref id [start_line +:+ newline; die_line]
           (set_data "}" sample_emitter)).
  apply JSON_parse_ref_dead_after_brace.
Defined.

Lemma no_pid_notification_no_action_witness :
  lastSeen (state_of (listen sample_emitter)) <> Some "dockerd.pid"
  /\ Forall (fun ef : string * string => ef.2 <> "dockerd.pid")
       [("rename", "docker.sock"); ("change", "docker.sock"); ("rename", "docker.sock")]
  /\ (let st := state_of (listen sample_emitter) in
      let evs := [("rename", "docker.sock"); ("change", "docker.sock");
                  ("rename", "docker.sock")] in
      let r := notify evs st in
      result_of r = Normal tt
      /\ trace_of r = []
      /\ state_of r = set_lastSeen (last_qualifying evs (lastSeen st)) st).
Proof.
  split; [vm_compute; discriminate|].
  split; [repeat constructor; discriminate|].
  apply (no_pid_notification_no_action
           [("rename", "docker.sock"); ("change", "docker.sock"); ("rename", "docker.sock")]
           (state_of (listen sample_emitter))).
  - vm_compute; discriminate.
  - repeat constructor; discriminate.
Defined.


(** The exit of the process after the socket went away and came back: two
    hooks, both on the second child. *)
Example two_hooks_signal_the_second_child :
  trace_of (on_process_exit
              (state_of (run JsonRef.JSON_parse_ref id restarted_inputs
                           (constructor ["type=container"]))))
  = [ESignal 1; ESignal 1].
Proof. vm_compute. reflexivity. Qed.

(** A wildcard listener receives an event of type ['*'] twice. *)
Example star_event_twice :
  trace_of (emit id (VJson (JStr "*")) [VJson JNull] sample_emitter)
  = [ECall 1 [VJson JNull]; ECall 1 [VJson JNull]].
Proof. vm_compute. reflexivity. Qed.
